(** * The angle model of the railway clock widget (clock.js)

    A shallow embedding of the motion model of [clock.Clock]: the three
    methods [computeSecondsAngle], [computeMinutesAngle] and
    [computeHoursAngle], the geometry helper [rotate], the construction of
    a clock from [DEFAULT_OPTIONS_], and the [Date] getters they read.

    Numbers.  A JavaScript Number is an IEEE-754 double; it is modelled
    here by the real number it stands for, and [Math.log], [Math.exp],
    [Math.sin], [Math.cos] and [Math.PI] by the real functions and the
    real constant they approximate.  All statements below are therefore
    statements of exact real arithmetic about the formulas the code
    evaluates; rounding is not modelled.  Outside the valid parameters the
    two differ ([Math.log] of a non-positive number is NaN or -Infinity,
    a division by zero is an infinity or NaN), so the parameters are
    assumed valid wherever a statement depends on it. *)

From Stdlib Require Import Reals Lra Lia ZArith String.
From Stdlib Require Import Machin.
From Stdlib Require Import List.

Local Open Scope R_scope.

(** ** The [Math] object *)

Module Math.
Definition PI : R := Rtrigo1.PI.
Definition log (x : R) : R := ln x.
Definition exp (x : R) : R := Rtrigo_def.exp x.
Definition sin (x : R) : R := Rtrigo_def.sin x.
Definition cos (x : R) : R := Rtrigo_def.cos x.
End Math.

(** ** [Date]

    A valid [Date] holds a time value, the milliseconds since the epoch,
    and its getters read the components of the local time: the time value
    plus the local time zone adjustment in force at that instant.  The
    getters are the ones of ECMAScript ([msFromTime], [SecFromTime],
    [MinFromTime], [HourFromTime]), with [Z.div] and [Z.modulo] rounding
    towards minus infinity as [floor] and [modulo] do there. *)

Record Date : Type := mkDate {
  timeValue : Z;
  localTZA : Z
}.

Definition localTime (d : Date) : Z := (timeValue d + localTZA d)%Z.

Definition getMilliseconds (d : Date) : Z := (localTime d mod 1000)%Z.
Definition getSeconds (d : Date) : Z := ((localTime d / 1000) mod 60)%Z.
Definition getMinutes (d : Date) : Z := ((localTime d / 60000) mod 60)%Z.
Definition getHours (d : Date) : Z := ((localTime d / 3600000) mod 24)%Z.

(** ** Options *)

Record Dim : Type := mkDim { width : R; height : R }.

Module Shape.
Record Hand : Type := mkHand { base : Dim; top : Dim }.
Record SecondHand : Type := mkSecondHand {
  sh_width : R;
  base_height : R;
  top_height : R;
  top_radius : R
}.
Record t : Type := mk {
  marker_radius : R;
  hour_marker : Dim;
  minute_marker : Dim;
  hour_hand : Hand;
  minute_hand : Hand;
  second_hand : SecondHand
}.
End Shape.

Module Behavior.
Record SecondHand : Type := mkSecondHand {
  pause_seconds : R;
  s_decay : R;
  s_decay_seconds : R
}.
Record MinuteHand : Type := mkMinuteHand {
  m_decay : R;
  m_decay_seconds : R;
  frequency : R
}.
Record HourHand : Type := mkHourHand {
  h_decay : R;
  h_decay_seconds : R
}.
Record t : Type := mk {
  second_hand : SecondHand;
  minute_hand : MinuteHand;
  hour_hand : HourHand
}.
End Behavior.

Module Style.
Record Shadow : Type := mkShadow {
  color : string;
  offsetX : R;
  offsetY : R;
  blur : R
}.
Record t : Type := mk {
  background : string;
  border : string;
  hour_marker : string;
  minute_marker : string;
  hour_hand : string;
  minute_hand : string;
  second_hand : string;
  shadow : Shadow
}.
End Style.

(** The options object with every top-level key present. *)
Record Options : Type := mkOptions {
  size : R;
  fps : R;
  margin : R;
  shape : Shape.t;
  behavior : Behavior.t;
  style : Style.t
}.

(** The [opt] argument of the constructor: any top-level key may be absent.
    A nested object that is given is given whole: an object that lacks
    some of its own keys (the merge is shallow, so it would stay
    incomplete and the code would read [undefined] from it) is outside
    this model. *)
Record PartialOptions : Type := mkPartialOptions {
  opt_size : option R;
  opt_fps : option R;
  opt_margin : option R;
  opt_shape : option Shape.t;
  opt_behavior : option Behavior.t;
  opt_style : option Style.t
}.

Definition BASE_SIZE : R := 100.

Definition DEFAULT_OPTIONS_ : Options := {|
  size := 300;
  fps := 30;
  margin := 0.1;
  shape := {|
    Shape.marker_radius := 48.5;
    Shape.hour_marker := {| width := 3.5; height := 12.0 |};
    Shape.minute_marker := {| width := 1.4; height := 3.5 |};
    Shape.hour_hand := {|
      Shape.base := {| width := 6.4; height := 12.0 |};
      Shape.top := {| width := 5.2; height := 32.0 |} |};
    Shape.minute_hand := {|
      Shape.base := {| width := 5.2; height := 12.0 |};
      Shape.top := {| width := 3.6; height := 46.0 |} |};
    Shape.second_hand := {|
      Shape.sh_width := 1.4;
      Shape.base_height := 16.5;
      Shape.top_height := 31.2;
      Shape.top_radius := 5.25 |} |};
  behavior := {|
    Behavior.second_hand := {|
      Behavior.pause_seconds := 1.5;
      Behavior.s_decay := 0.1;
      Behavior.s_decay_seconds := 0.5 |};
    Behavior.minute_hand := {|
      Behavior.m_decay := 0.1;
      Behavior.m_decay_seconds := 0.3;
      Behavior.frequency := 6 |};
    Behavior.hour_hand := {|
      Behavior.h_decay := 0.1;
      Behavior.h_decay_seconds := 1 |} |};
  style := {|
    Style.background := "white";
    Style.border := "black";
    Style.hour_marker := "black";
    Style.minute_marker := "black";
    Style.hour_hand := "black";
    Style.minute_hand := "black";
    Style.second_hand := "red";
    Style.shadow := {|
      Style.color := "rgba(0, 0, 0, 0.2)";
      Style.offsetX := 5;
      Style.offsetY := 5;
      Style.blur := 2 |} |}
|}.

(** [Object.assign({}, defaults, opt || {})]: a key of [opt] replaces the
    whole value of that key; nested objects are not merged. *)
Definition assign (defaults : Options) (opt : option PartialOptions) : Options :=
  match opt with
  | None => defaults
  | Some o => {|
      size := match opt_size o with Some v => v | None => size defaults end;
      fps := match opt_fps o with Some v => v | None => fps defaults end;
      margin := match opt_margin o with Some v => v | None => margin defaults end;
      shape := match opt_shape o with Some v => v | None => shape defaults end;
      behavior :=
        match opt_behavior o with Some v => v | None => behavior defaults end;
      style := match opt_style o with Some v => v | None => style defaults end
    |}
  end.

(** ** The clock object *)

Record Point : Type := mkPoint { x : R; y : R }.

Record Quad : Type := mkQuad { topLeft : Point; bottomRight : Point }.

Record Quads : Type := mkQuads {
  q_hour_marker : Quad;
  q_minute_marker : Quad;
  q_hour_hand : Quad;
  q_minute_hand : Quad;
  q_second_hand : Quad
}.

(** The fields of [this] that hold plain data.  [context_] and [buffer]
    are drawing surfaces of the page and are left out; [canvas_] is kept
    as its two dimensions. *)
Record Clock : Type := mkClock {
  canvas_ : Dim;
  interval_ : R;
  margin_ : R;
  shape_ : Shape.t;
  behavior_ : Behavior.t;
  style_ : Style.t;
  quads_ : option Quads
}.

(** [new clock.Clock(e, opt)].  The canvas is given [opt.size] as its
    width and height; the element keeps a non-negative integer below
    [2^31] as it is (see [canvasSize]) and coerces any other number, which
    is not modelled. *)
Definition new_Clock (opt : option PartialOptions) : Clock :=
  let opt := assign DEFAULT_OPTIONS_ opt in
  {| canvas_ := {| width := size opt; height := size opt |};
     interval_ := 1000.0 / fps opt;
     margin_ := margin opt;
     shape_ := shape opt;
     behavior_ := behavior opt;
     style_ := style opt;
     quads_ := None |}.

(** ** Methods

    A method runs on [this] and returns a value together with [this] as
    the call leaves it. *)

Definition Method (A : Type) : Type := Clock -> A * Clock.

Definition ret {A : Type} (a : A) : Method A := fun this => (a, this).

Definition bind {A B : Type} (m : Method A) (k : A -> Method B) : Method B :=
  fun this => let (a, this') := m this in k a this'.

(** Reading [this.f] *)
Definition this_ {A : Type} (f : Clock -> A) : Method A :=
  fun this => (f this, this).

(** The assignment [this.quads_ = q] *)
Definition set_quads_ (q : Quads) : Method unit :=
  fun this =>
    (tt, {| canvas_ := canvas_ this;
            interval_ := interval_ this;
            margin_ := margin_ this;
            shape_ := shape_ this;
            behavior_ := behavior_ this;
            style_ := style_ this;
            quads_ := Some q |}).

Notation "x <- m ;; k" := (bind m (fun x => k))
  (at level 61, m at next level, right associativity).

(** The value a call returns, and the object it leaves. *)
Definition result {A : Type} (m : Method A) (this : Clock) : A := fst (m this).
Definition after {A : Type} (m : Method A) (this : Clock) : Clock := snd (m this).

Definition makeQuad (topWidth topHeight baseWidth baseHeight : R) : Method Quad :=
  ret {| topLeft := {| x := - topWidth / 2; y := - topHeight |};
         bottomRight := {| x := baseWidth / 2; y := baseHeight |} |}.

Definition computeQuads : Method unit :=
  s <- this_ shape_ ;;
  hour_marker <- makeQuad (width (Shape.hour_marker s))
                          (Shape.marker_radius s)
                          (width (Shape.hour_marker s))
                          (height (Shape.hour_marker s) - Shape.marker_radius s) ;;
  minute_marker <- makeQuad (width (Shape.minute_marker s))
                            (Shape.marker_radius s)
                            (width (Shape.minute_marker s))
                            (height (Shape.minute_marker s) - Shape.marker_radius s) ;;
  hour_hand <- makeQuad (width (Shape.top (Shape.hour_hand s)))
                        (height (Shape.top (Shape.hour_hand s)))
                        (width (Shape.base (Shape.hour_hand s)))
                        (height (Shape.base (Shape.hour_hand s))) ;;
  minute_hand <- makeQuad (width (Shape.top (Shape.minute_hand s)))
                          (height (Shape.top (Shape.minute_hand s)))
                          (width (Shape.base (Shape.minute_hand s)))
                          (height (Shape.base (Shape.minute_hand s))) ;;
  second_hand <- makeQuad (Shape.sh_width (Shape.second_hand s))
                          (Shape.top_height (Shape.second_hand s))
                          (Shape.sh_width (Shape.second_hand s))
                          (Shape.base_height (Shape.second_hand s)) ;;
  set_quads_ {| q_hour_marker := hour_marker;
                q_minute_marker := minute_marker;
                q_hour_hand := hour_hand;
                q_minute_hand := minute_hand;
                q_second_hand := second_hand |}.

Definition computeSecondsAngle (now : Date) : Method R :=
  pause_seconds <- this_ (fun this =>
    Behavior.pause_seconds (Behavior.second_hand (behavior_ this))) ;;
  let cycle := 60 - pause_seconds in
  let t := IZR (getMilliseconds now) / 1000.0 + IZR (getSeconds now) in
  let v := 2 * Math.PI / cycle in
  decay <- this_ (fun this =>
    Behavior.s_decay (Behavior.second_hand (behavior_ this))) ;;
  decay_seconds <- this_ (fun this =>
    Behavior.s_decay_seconds (Behavior.second_hand (behavior_ this))) ;;
  let l := Math.log decay / decay_seconds in
  if Rge_dec t cycle then
    let x := t - cycle in
    ret (v * x * Math.exp (l * x))
  else
    ret (v * t * (1 - Math.exp (l * t))).

Definition computeMinutesAngle (now : Date) : Method R :=
  let delta := Math.PI / 30 in
  let angle := delta * IZR (getMinutes now) in
  let t := IZR (getMilliseconds now) / 1000.0 + IZR (getSeconds now) in
  decay <- this_ (fun this =>
    Behavior.m_decay (Behavior.minute_hand (behavior_ this))) ;;
  decay_seconds <- this_ (fun this =>
    Behavior.m_decay_seconds (Behavior.minute_hand (behavior_ this))) ;;
  let l := Math.log decay / decay_seconds in
  frequency <- this_ (fun this =>
    Behavior.frequency (Behavior.minute_hand (behavior_ this))) ;;
  let w := 2 * Math.PI * frequency in
  let wt := w * t in
  ret (angle + delta * Math.exp (l * t) *
         ((l / w) * Math.sin wt - Math.cos wt)).

Definition computeHoursAngle (now : Date) : Method R :=
  let t := IZR (getMilliseconds now) / 1000.0 + IZR (getSeconds now) in
  let delta := Math.PI / 360 in
  let angle := (IZR (getMinutes now) + 60 * IZR (getHours now)) * delta in
  decay <- this_ (fun this =>
    Behavior.h_decay (Behavior.hour_hand (behavior_ this))) ;;
  decay_seconds <- this_ (fun this =>
    Behavior.h_decay_seconds (Behavior.hour_hand (behavior_ this))) ;;
  let l := Math.log decay / decay_seconds in
  ret (angle + delta * (l * t - 1) * Math.exp (l * t)).

Definition rotate (point : Point) (angle : R) : Method Point :=
  ret {| x := Math.cos angle * x point - Math.sin angle * y point;
         y := Math.sin angle * x point + Math.cos angle * y point |}.

(** ** The angles as functions of a real time

    The bodies of the three methods from the point where [t] has been
    read off the date: the same expressions, with the seconds within the
    minute [t], the minute of the hour and the hour of the day given as
    real numbers.  Continuity and limits in [t] are stated on these. *)

Definition secondsAngle (b : Behavior.SecondHand) (t : R) : R :=
  let cycle := 60 - Behavior.pause_seconds b in
  let v := 2 * Math.PI / cycle in
  let l := Math.log (Behavior.s_decay b) / Behavior.s_decay_seconds b in
  if Rge_dec t cycle then
    let x := t - cycle in
    v * x * Math.exp (l * x)
  else
    v * t * (1 - Math.exp (l * t)).

Definition minutesAngle (b : Behavior.MinuteHand) (minutes t : R) : R :=
  let delta := Math.PI / 30 in
  let angle := delta * minutes in
  let l := Math.log (Behavior.m_decay b) / Behavior.m_decay_seconds b in
  let w := 2 * Math.PI * Behavior.frequency b in
  let wt := w * t in
  angle + delta * Math.exp (l * t) * ((l / w) * Math.sin wt - Math.cos wt).

Definition hoursAngle (b : Behavior.HourHand) (minutes hours t : R) : R :=
  let delta := Math.PI / 360 in
  let angle := (minutes + 60 * hours) * delta in
  let l := Math.log (Behavior.h_decay b) / Behavior.h_decay_seconds b in
  angle + delta * (l * t - 1) * Math.exp (l * t).

(** The seconds within the minute that the three methods compute. *)
Definition subMinute (now : Date) : R :=
  IZR (getMilliseconds now) / 1000.0 + IZR (getSeconds now).

(** ** Valid parameters *)

Definition valid_second_hand (b : Behavior.SecondHand) : Prop :=
  0 < Behavior.s_decay b < 1 /\ 0 < Behavior.s_decay_seconds b /\
  0 <= Behavior.pause_seconds b < 60.

Definition valid_minute_hand (b : Behavior.MinuteHand) : Prop :=
  0 < Behavior.m_decay b < 1 /\ 0 < Behavior.m_decay_seconds b /\
  0 < Behavior.frequency b.

Definition valid_hour_hand (b : Behavior.HourHand) : Prop :=
  0 < Behavior.h_decay b < 1 /\ 0 < Behavior.h_decay_seconds b.

(** The decay rate [ln(decay) / decaySeconds]. *)
Definition rate (decay decaySeconds : R) : R := Math.log decay / decaySeconds.

(** The two branches of [secondsAngle], each as a function of every real
    time: the expression returned while the hand sweeps, and the one
    returned while it rests at the mark. *)
Definition sweepAngle (b : Behavior.SecondHand) (t : R) : R :=
  let cycle := 60 - Behavior.pause_seconds b in
  let v := 2 * Math.PI / cycle in
  let l := Math.log (Behavior.s_decay b) / Behavior.s_decay_seconds b in
  v * t * (1 - Math.exp (l * t)).

Definition pauseAngle (b : Behavior.SecondHand) (t : R) : R :=
  let cycle := 60 - Behavior.pause_seconds b in
  let v := 2 * Math.PI / cycle in
  let l := Math.log (Behavior.s_decay b) / Behavior.s_decay_seconds b in
  let x := t - cycle in
  v * x * Math.exp (l * x).

(** ** Sample clocks and dates

    The clock built with no options, a clock that differs from it in its
    style only, and a few dates (time value in milliseconds, local time
    zone adjustment zero). *)

Definition defaultClock : Clock := new_Clock None.

Definition blueStyle : Style.t := {|
  Style.background := "white";
  Style.border := "black";
  Style.hour_marker := "black";
  Style.minute_marker := "black";
  Style.hour_hand := "black";
  Style.minute_hand := "black";
  Style.second_hand := "blue";
  Style.shadow := Style.shadow (style DEFAULT_OPTIONS_)
|}.

Definition blueClock : Clock :=
  new_Clock (Some {| opt_size := Some 200; opt_fps := None; opt_margin := None;
                     opt_shape := None; opt_behavior := None;
                     opt_style := Some blueStyle |}).

(** 00:00:00.000 *)
Definition midnight : Date := mkDate 0 0.
(** 00:00:00.100 *)
Definition tenthOfSecond : Date := mkDate 100 0.
(** 00:00:59.000 *)
Definition second59 : Date := mkDate 59000 0.
(** 00:00:58.500, where the default cycle of 58.5 seconds ends *)
Definition endOfCycle : Date := mkDate 58500 0.
(** 07:42:13.250 on the first day, and the same time one day later *)
Definition morning : Date := mkDate 27733250 0.
Definition nextMorning : Date := mkDate 114133250 0.

(** ** The drawing surface

    The 2d context of a canvas is modelled by the calls it receives, in
    the order they are made; a property assignment such as
    [ctx.fillStyle = v] is a call too.  [drawImage_buffer] is
    [ctx.drawImage(this.buffer, dx, dy)]. *)

Module Canvas.
Inductive Call : Type :=
| save
| restore
| translate (tx ty : R)
| scale (sx sy : R)
| setTransform (a b c d e f : R)
| clearRect (rx ry rw rh : R)
| drawImage_buffer (dx dy : R)
| beginPath
| closePath
| moveTo (px py : R)
| lineTo (px py : R)
| arc (cx cy radius startAngle endAngle : R) (anticlockwise : bool)
| fill
| stroke
| fillStyle (v : string)
| strokeStyle (v : string)
| shadowColor (v : string)
| shadowOffsetX (v : R)
| shadowOffsetY (v : R)
| shadowBlur (v : R).

(** A canvas element: its dimensions and the calls its context received. *)
Record t : Type := mk { cv_width : R; cv_height : R; calls : list Call }.
End Canvas.

(** The clock object with its drawing surfaces: the data fields, the calls
    [this.context_] has received, [this.buffer] once it exists, and the
    periods of the timers installed to call [draw]. *)
Record Widget : Type := mkWidget {
  this_data : Clock;
  context_ : list Canvas.Call;
  buffer : option Canvas.t;
  intervals : list R
}.

(** [new clock.Clock(e, opt)], with the canvas it creates: a context that
    has received no call, no buffer, no timer. *)
Definition new_Widget (opt : option PartialOptions) : Widget :=
  {| this_data := new_Clock opt;
     context_ := nil;
     buffer := None;
     intervals := nil |}.

(** A method that draws: it runs on the widget and either returns a value
    with the widget as the call leaves it, or throws ([None]): the throws
    modelled are the TypeErrors of reading a property of [undefined] and
    of drawing [undefined] as an image, and the InvalidStateError of
    drawing an empty canvas as an image. *)
Definition Draw (A : Type) : Type := Widget -> option (A * Widget).

Definition dret {A : Type} (a : A) : Draw A := fun w => Some (a, w).

Definition dbind {A B : Type} (m : Draw A) (k : A -> Draw B) : Draw B :=
  fun w => match m w with
           | Some (a, w') => k a w'
           | None => None
           end.

Definition throw {A : Type} : Draw A := fun _ => None.

Notation "x <~ m ;; k" := (dbind m (fun x => k))
  (at level 61, m at next level, right associativity).
Notation "m >> k" := (dbind m (fun _ => k))
  (at level 61, right associativity).

(** A method of the data fields, run on the widget. *)
Definition lift {A : Type} (m : Method A) : Draw A :=
  fun w => let (a, this') := m (this_data w) in
           Some (a, {| this_data := this';
                       context_ := context_ w;
                       buffer := buffer w;
                       intervals := intervals w |}).

(** The two contexts the code holds: [this.context_] and the context of
    [this.buffer]. *)
Inductive Context2D : Type := this_context_ | buffer_context.

(** A call on a context: it is added to what the context has received.
    The buffer's context exists once the buffer does; the code obtains it
    from the buffer it has just created, so the [None] below is never
    reached by it. *)
Definition call (ctx : Context2D) (c : Canvas.Call) : Draw unit :=
  fun w =>
    match ctx with
    | this_context_ =>
        Some (tt, {| this_data := this_data w;
                     context_ := context_ w ++ c :: nil;
                     buffer := buffer w;
                     intervals := intervals w |})
    | buffer_context =>
        match buffer w with
        | Some b =>
            Some (tt, {| this_data := this_data w;
                         context_ := context_ w;
                         buffer := Some {| Canvas.cv_width := Canvas.cv_width b;
                                           Canvas.cv_height := Canvas.cv_height b;
                                           Canvas.calls := Canvas.calls b ++ c :: nil |};
                         intervals := intervals w |})
        | None => None
        end
    end.

(** [this.buffer = document.createElement('CANVAS')] with its width and
    height set. *)
Definition set_buffer (w h : R) : Draw unit :=
  fun wd =>
    Some (tt, {| this_data := this_data wd;
                 context_ := context_ wd;
                 buffer := Some {| Canvas.cv_width := w;
                                   Canvas.cv_height := h;
                                   Canvas.calls := nil |};
                 intervals := intervals wd |}).

(** [window.setInterval(function() { clock.draw(); }, period)] *)
Definition setInterval_draw (period : R) : Draw unit :=
  fun w =>
    Some (tt, {| this_data := this_data w;
                 context_ := context_ w;
                 buffer := buffer w;
                 intervals := intervals w ++ period :: nil |}).

(** Reading a member of [this.quads_]: a TypeError while [this.quads_] is
    undefined. *)
Definition this_quads_ (member : Quads -> Quad) : Draw Quad :=
  q <~ lift (this_ quads_) ;;
  match q with
  | Some qs => dret (member qs)
  | None => throw
  end.

(** Passing [this.buffer] to [drawImage]: a TypeError while [this.buffer]
    is undefined, which is no image, and an InvalidStateError when the
    buffer is a canvas of width or height zero. *)
Definition this_buffer : Draw Canvas.t :=
  fun w => match buffer w with
           | Some b =>
               if Req_dec_T (Canvas.cv_width b) 0 then None
               else if Req_dec_T (Canvas.cv_height b) 0 then None
               else Some (b, w)
           | None => None
           end.

(** [for (var i = start; i < start + n; ++i) body], the variables the body
    assigns threaded through as [s]. *)
Fixpoint for_ {S : Type} (n : nat) (i : nat) (body : nat -> S -> Draw S) (s : S)
  : Draw S :=
  match n with
  | O => dret s
  | Datatypes.S n' => s' <~ body i s ;; for_ n' (Datatypes.S i) body s'
  end.

Definition Math_min (a b : R) : R := Rmin a b.

Definition prepareContext (ctx : Context2D) : Draw unit :=
  cw <~ lift (this_ (fun this => width (canvas_ this))) ;;
  ch <~ lift (this_ (fun this => height (canvas_ this))) ;;
  call ctx (Canvas.translate (cw / 2) (ch / 2)) >>
  let original_size := Math_min cw ch in
  margin <~ lift (this_ margin_) ;;
  let scale := original_size / (BASE_SIZE / (1 - 2 * margin)) in
  call ctx (Canvas.scale scale scale).

Definition drawQuad (ctx : Context2D) (quad : Quad) (angle : R) : Draw unit :=
  let points :=
    {| x := - x (topLeft quad); y := y (topLeft quad) |} ::
    {| x := x (bottomRight quad); y := y (bottomRight quad) |} ::
    {| x := - x (bottomRight quad); y := y (bottomRight quad) |} :: nil in
  call ctx Canvas.beginPath >>
  let l := length points in
  p <~ lift (rotate (topLeft quad) angle) ;;
  call ctx (Canvas.moveTo (x p) (y p)) >>
  for_ l 0 (fun i _ =>
    match nth_error points i with
    | Some point =>
        p <~ lift (rotate point angle) ;;
        call ctx (Canvas.lineTo (x p) (y p))
    | None => throw
    end) tt >>
  call ctx Canvas.closePath.

Definition prepareBackground : Draw unit :=
  cw <~ lift (this_ (fun this => width (canvas_ this))) ;;
  ch <~ lift (this_ (fun this => height (canvas_ this))) ;;
  set_buffer cw ch >>
  let ctx := buffer_context in
  prepareContext ctx >>
  background <~ lift (this_ (fun this => Style.background (style_ this))) ;;
  call ctx (Canvas.fillStyle background) >>
  border <~ lift (this_ (fun this => Style.border (style_ this))) ;;
  call ctx (Canvas.strokeStyle border) >>
  call ctx Canvas.beginPath >>
  call ctx (Canvas.arc 0 0 (BASE_SIZE / 2) 0 (Math.PI * 2) true) >>
  call ctx Canvas.fill >>
  call ctx Canvas.stroke >>
  let angle := 0 in
  let step := Math.PI / 6 in
  for_ 12 0 (fun i angle =>
    hour_marker <~ lift (this_ (fun this => Style.hour_marker (style_ this))) ;;
    call ctx (Canvas.fillStyle hour_marker) >>
    quad <~ this_quads_ q_hour_marker ;;
    drawQuad ctx quad angle >>
    call ctx Canvas.fill >>
    let s := Math.PI / 30 in
    let a := s in
    minute_marker <~ lift (this_ (fun this => Style.minute_marker (style_ this))) ;;
    call ctx (Canvas.fillStyle minute_marker) >>
    for_ 4 0 (fun j a =>
      quad <~ this_quads_ q_minute_marker ;;
      drawQuad ctx quad (angle + a) >>
      call ctx Canvas.fill >>
      dret (a + s)) a >>
    dret (angle + step)) angle >>
  dret tt.

Definition drawBackground : Draw unit :=
  let ctx := this_context_ in
  call ctx Canvas.save >>
  call ctx (Canvas.setTransform 1 0 0 1 0 0) >>
  cw <~ lift (this_ (fun this => width (canvas_ this))) ;;
  ch <~ lift (this_ (fun this => height (canvas_ this))) ;;
  call ctx (Canvas.clearRect 0 0 cw ch) >>
  this_buffer >>
  call ctx (Canvas.drawImage_buffer 0 0) >>
  call ctx Canvas.restore.

Definition drawHands (now : Date) : Draw unit :=
  let ctx := this_context_ in
  call ctx Canvas.save >>
  shadow <~ lift (this_ (fun this => Style.shadow (style_ this))) ;;
  call ctx (Canvas.shadowColor (Style.color shadow)) >>
  call ctx (Canvas.shadowOffsetX (Style.offsetX shadow)) >>
  call ctx (Canvas.shadowOffsetY (Style.offsetY shadow)) >>
  call ctx (Canvas.shadowBlur (Style.blur shadow)) >>
  hour_hand <~ lift (this_ (fun this => Style.hour_hand (style_ this))) ;;
  call ctx (Canvas.fillStyle hour_hand) >>
  angle <~ lift (computeHoursAngle now) ;;
  quad <~ this_quads_ q_hour_hand ;;
  drawQuad ctx quad angle >>
  call ctx Canvas.fill >>
  minute_hand <~ lift (this_ (fun this => Style.minute_hand (style_ this))) ;;
  call ctx (Canvas.fillStyle minute_hand) >>
  angle <~ lift (computeMinutesAngle now) ;;
  quad <~ this_quads_ q_minute_hand ;;
  drawQuad ctx quad angle >>
  call ctx Canvas.fill >>
  second_hand <~ lift (this_ (fun this => Style.second_hand (style_ this))) ;;
  call ctx (Canvas.fillStyle second_hand) >>
  call ctx (Canvas.strokeStyle second_hand) >>
  angle <~ lift (computeSecondsAngle now) ;;
  quad <~ this_quads_ q_second_hand ;;
  drawQuad ctx quad angle >>
  top_height <~ lift (this_ (fun this =>
    Shape.top_height (Shape.second_hand (shape_ this)))) ;;
  p <~ lift (rotate {| x := 0; y := - top_height |} angle) ;;
  top_radius <~ lift (this_ (fun this =>
    Shape.top_radius (Shape.second_hand (shape_ this)))) ;;
  call ctx (Canvas.moveTo (x p + top_radius) (y p)) >>
  call ctx (Canvas.arc (x p) (y p) top_radius 0 (Math.PI * 2) false) >>
  call ctx Canvas.fill >>
  call ctx Canvas.restore.

(** [draw], with the date that [new Date()] returns given as [now]. *)
Definition draw (now : Date) : Draw unit :=
  drawBackground >>
  drawHands now.

Definition run : Draw unit :=
  let ctx := this_context_ in
  prepareContext ctx >>
  lift computeQuads >>
  prepareBackground >>
  interval <~ lift (this_ interval_) ;;
  setInterval_draw interval.

Definition resetTransform : Draw unit :=
  let ctx := this_context_ in
  call ctx (Canvas.setTransform 1 0 0 1 0 0) >>
  prepareContext ctx >>
  prepareBackground.

(** ** The transform of a context

    The current transformation matrix a context ends with after a list of
    calls, as the canvas defines it: [translate] and [scale] multiply the
    matrix on the right, [setTransform] replaces it, [save] pushes it and
    [restore] pops it (and does nothing on an empty stack).  A point
    [(px, py)] of a path is drawn at [(a px + c py + e, b px + d py + f)]. *)

Record Matrix : Type := mkMatrix {
  m_a : R; m_b : R; m_c : R; m_d : R; m_e : R; m_f : R
}.

Definition identityMatrix : Matrix := mkMatrix 1 0 0 1 0 0.

Definition transformPoint (m : Matrix) (p : Point) : Point :=
  {| x := m_a m * x p + m_c m * y p + m_e m;
     y := m_b m * x p + m_d m * y p + m_f m |}.

Definition transformStep (st : Matrix * list Matrix) (c : Canvas.Call)
  : Matrix * list Matrix :=
  let (m, stack) := st in
  match c with
  | Canvas.save => (m, m :: stack)
  | Canvas.restore =>
      match stack with
      | nil => (m, nil)
      | m' :: stack' => (m', stack')
      end
  | Canvas.translate tx ty =>
      (mkMatrix (m_a m) (m_b m) (m_c m) (m_d m)
                (m_a m * tx + m_c m * ty + m_e m)
                (m_b m * tx + m_d m * ty + m_f m), stack)
  | Canvas.scale sx sy =>
      (mkMatrix (m_a m * sx) (m_b m * sx) (m_c m * sy) (m_d m * sy)
                (m_e m) (m_f m), stack)
  | Canvas.setTransform a b c d e f => (mkMatrix a b c d e f, stack)
  | _ => (m, stack)
  end.

Definition transformState (calls : list Canvas.Call) : Matrix * list Matrix :=
  fold_left transformStep calls (identityMatrix, nil).

Definition currentTransform (calls : list Canvas.Call) : Matrix :=
  fst (transformState calls).

(** The calls [drawQuad] makes for a quad and an angle. *)
Definition rotated (p : Point) (angle : R) : Point :=
  {| x := Math.cos angle * x p - Math.sin angle * y p;
     y := Math.sin angle * x p + Math.cos angle * y p |}.

Definition quadPath (quad : Quad) (angle : R) : list Canvas.Call :=
  let tl := rotated (topLeft quad) angle in
  let tr := rotated {| x := - x (topLeft quad); y := y (topLeft quad) |} angle in
  let br := rotated (bottomRight quad) angle in
  let bl := rotated {| x := - x (bottomRight quad); y := y (bottomRight quad) |} angle in
  Canvas.beginPath ::
  Canvas.moveTo (x tl) (y tl) ::
  Canvas.lineTo (x tr) (y tr) ::
  Canvas.lineTo (x br) (y br) ::
  Canvas.lineTo (x bl) (y bl) ::
  Canvas.closePath :: nil.

(** ** Descriptions of what is drawn

    Used to state what the drawing methods do. *)

(** The widget once a context has received the calls [cs] on top of what
    it had received. *)
Definition received (ctx : Context2D) (cs : list Canvas.Call) (w : Widget)
  : Widget :=
  match ctx with
  | this_context_ =>
      {| this_data := this_data w;
         context_ := context_ w ++ cs;
         buffer := buffer w;
         intervals := intervals w |}
  | buffer_context =>
      {| this_data := this_data w;
         context_ := context_ w;
         buffer :=
           match buffer w with
           | Some b => Some {| Canvas.cv_width := Canvas.cv_width b;
                               Canvas.cv_height := Canvas.cv_height b;
                               Canvas.calls := Canvas.calls b ++ cs |}
           | None => None
           end;
         intervals := intervals w |}
  end.

(** The context exists: [this.context_] always, the buffer's once
    [this.buffer] is set. *)
Definition hasContext (ctx : Context2D) (w : Widget) : Prop :=
  match ctx with
  | this_context_ => True
  | buffer_context => buffer w <> None
  end.

(** The scale factor [prepareContext] computes. *)
Definition contextScale (this : Clock) : R :=
  Math_min (width (canvas_ this)) (height (canvas_ this)) /
  (BASE_SIZE / (1 - 2 * margin_ this)).

Definition contextCalls (this : Clock) : list Canvas.Call :=
  Canvas.translate (width (canvas_ this) / 2) (height (canvas_ this) / 2) ::
  Canvas.scale (contextScale this) (contextScale this) :: nil.

(** The face: the disc of diameter [BASE_SIZE] around the origin. *)
Definition faceCalls (this : Clock) : list Canvas.Call :=
  Canvas.fillStyle (Style.background (style_ this)) ::
  Canvas.strokeStyle (Style.border (style_ this)) ::
  Canvas.beginPath ::
  Canvas.arc 0 0 (BASE_SIZE / 2) 0 (Math.PI * 2) true ::
  Canvas.fill ::
  Canvas.stroke :: nil.

(** The [n]-th of the sixty marks of the dial, at [n] times [PI / 30]:
    an hour marker when [n] is a multiple of five, a minute marker
    otherwise (the fill style is set once before each run of four). *)
Definition markerAngle (n : nat) : R := INR n * (Math.PI / 30).

Definition markerCalls (this : Clock) (qs : Quads) (n : nat)
  : list Canvas.Call :=
  match Nat.modulo n 5 with
  | O =>
      Canvas.fillStyle (Style.hour_marker (style_ this)) ::
      quadPath (q_hour_marker qs) (markerAngle n) ++ Canvas.fill :: nil
  | Datatypes.S O =>
      Canvas.fillStyle (Style.minute_marker (style_ this)) ::
      quadPath (q_minute_marker qs) (markerAngle n) ++ Canvas.fill :: nil
  | _ => quadPath (q_minute_marker qs) (markerAngle n) ++ Canvas.fill :: nil
  end.

(** The calls of one round of the outer loop of [prepareBackground], at
    the angle the round starts with: an hour marker and the four minute
    markers after it. *)
Definition hourBlockCalls (this : Clock) (qs : Quads) (angle : R)
  : list Canvas.Call :=
  (Canvas.fillStyle (Style.hour_marker (style_ this)) ::
   quadPath (q_hour_marker qs) angle ++ Canvas.fill ::
   Canvas.fillStyle (Style.minute_marker (style_ this)) :: nil) ++
  flat_map (fun j =>
              quadPath (q_minute_marker qs)
                (angle + (Math.PI / 30 + INR j * (Math.PI / 30))) ++
              Canvas.fill :: nil)
           (seq 0 4).

(** The calls of [drawBackground]. *)
Definition blitCalls (this : Clock) : list Canvas.Call :=
  Canvas.save ::
  Canvas.setTransform 1 0 0 1 0 0 ::
  Canvas.clearRect 0 0 (width (canvas_ this)) (height (canvas_ this)) ::
  Canvas.drawImage_buffer 0 0 ::
  Canvas.restore :: nil.

(** The centre of the disc at the tip of the second hand. *)
Definition tipCentre (this : Clock) (angle : R) : Point :=
  rotated {| x := 0;
             y := - Shape.top_height (Shape.second_hand (shape_ this)) |}
          angle.

(** The calls of [drawHands]: the hour hand, the minute hand, then the
    second hand with the disc at its tip, between [save] and [restore]. *)
Definition handsCalls (this : Clock) (qs : Quads) (now : Date)
  : list Canvas.Call :=
  let hours := result (computeHoursAngle now) this in
  let minutes := result (computeMinutesAngle now) this in
  let seconds := result (computeSecondsAngle now) this in
  let p := tipCentre this seconds in
  let top_radius := Shape.top_radius (Shape.second_hand (shape_ this)) in
  (Canvas.save ::
   Canvas.shadowColor (Style.color (Style.shadow (style_ this))) ::
   Canvas.shadowOffsetX (Style.offsetX (Style.shadow (style_ this))) ::
   Canvas.shadowOffsetY (Style.offsetY (Style.shadow (style_ this))) ::
   Canvas.shadowBlur (Style.blur (Style.shadow (style_ this))) ::
   Canvas.fillStyle (Style.hour_hand (style_ this)) :: nil) ++
  quadPath (q_hour_hand qs) hours ++
  (Canvas.fill ::
   Canvas.fillStyle (Style.minute_hand (style_ this)) :: nil) ++
  quadPath (q_minute_hand qs) minutes ++
  (Canvas.fill ::
   Canvas.fillStyle (Style.second_hand (style_ this)) ::
   Canvas.strokeStyle (Style.second_hand (style_ this)) :: nil) ++
  quadPath (q_second_hand qs) seconds ++
  (Canvas.moveTo (x p + top_radius) (y p) ::
   Canvas.arc (x p) (y p) top_radius 0 (Math.PI * 2) false ::
   Canvas.fill ::
   Canvas.restore :: nil).

(** The quads [computeQuads] builds from a shape. *)
Definition quadsOf (s : Shape.t) : Quads :=
  {| q_hour_marker :=
       {| topLeft := {| x := - width (Shape.hour_marker s) / 2;
                        y := - Shape.marker_radius s |};
          bottomRight := {| x := width (Shape.hour_marker s) / 2;
                            y := height (Shape.hour_marker s) -
                                 Shape.marker_radius s |} |};
     q_minute_marker :=
       {| topLeft := {| x := - width (Shape.minute_marker s) / 2;
                        y := - Shape.marker_radius s |};
          bottomRight := {| x := width (Shape.minute_marker s) / 2;
                            y := height (Shape.minute_marker s) -
                                 Shape.marker_radius s |} |};
     q_hour_hand :=
       {| topLeft := {| x := - width (Shape.top (Shape.hour_hand s)) / 2;
                        y := - height (Shape.top (Shape.hour_hand s)) |};
          bottomRight := {| x := width (Shape.base (Shape.hour_hand s)) / 2;
                            y := height (Shape.base (Shape.hour_hand s)) |} |};
     q_minute_hand :=
       {| topLeft := {| x := - width (Shape.top (Shape.minute_hand s)) / 2;
                        y := - height (Shape.top (Shape.minute_hand s)) |};
          bottomRight := {| x := width (Shape.base (Shape.minute_hand s)) / 2;
                            y := height (Shape.base (Shape.minute_hand s)) |} |};
     q_second_hand :=
       {| topLeft := {| x := - Shape.sh_width (Shape.second_hand s) / 2;
                        y := - Shape.top_height (Shape.second_hand s) |};
          bottomRight := {| x := Shape.sh_width (Shape.second_hand s) / 2;
                            y := Shape.base_height (Shape.second_hand s) |} |} |}.

(** The clock once [computeQuads] has run. *)
Definition withQuads (this : Clock) : Clock :=
  {| canvas_ := canvas_ this;
     interval_ := interval_ this;
     margin_ := margin_ this;
     shape_ := shape_ this;
     behavior_ := behavior_ this;
     style_ := style_ this;
     quads_ := Some (quadsOf (shape_ this)) |}.

(** The buffer [prepareBackground] builds: the context set up, the face,
    the sixty marks. *)
Definition backgroundBuffer (this : Clock) (qs : Quads) : Canvas.t :=
  {| Canvas.cv_width := width (canvas_ this);
     Canvas.cv_height := height (canvas_ this);
     Canvas.calls :=
       contextCalls this ++ faceCalls this ++
       flat_map (markerCalls this qs) (seq 0 60) |}.

(** The matrix [prepareContext] sets up on a context that has received
    no call. *)
Definition preparedMatrix (this : Clock) : Matrix :=
  mkMatrix (contextScale this) 0 0 (contextScale this)
           (width (canvas_ this) / 2) (height (canvas_ this) / 2).

(** The date [ms] milliseconds after [d], in the same time zone. *)
Definition laterBy (d : Date) (ms : Z) : Date :=
  mkDate (timeValue d + ms) (localTZA d).

(** The buffer is a canvas that can be drawn as an image: it exists and
    neither of its dimensions is zero. *)
Definition bufferDrawable (w : Widget) : Prop :=
  exists b : Canvas.t,
    buffer w = Some b /\ Canvas.cv_width b <> 0 /\ Canvas.cv_height b <> 0.

(** The widget is ready to draw: [this.quads_] is set, the buffer can be
    drawn, and the radius of the disc of the second hand is not negative
    (a canvas refuses an arc of negative radius). *)
Definition ready (w : Widget) : Prop :=
  quads_ (this_data w) <> None /\
  bufferDrawable w /\
  0 <= Shape.top_radius (Shape.second_hand (shape_ (this_data w))).

(** A size the canvas element keeps as it is and canvases support: a
    non-negative integer below [2^15]. *)
Definition canvasSize (size : R) : Prop :=
  exists n : Z, (0 <= n < 32768)%Z /\ size = IZR n.

(** A clock whose hour hand decays slowly: half of the displacement is
    left after ten minutes. *)
Definition slowHands : Behavior.t :=
  {| Behavior.second_hand := Behavior.second_hand (behavior DEFAULT_OPTIONS_);
     Behavior.minute_hand := Behavior.minute_hand (behavior DEFAULT_OPTIONS_);
     Behavior.hour_hand := {| Behavior.h_decay := 0.5;
                              Behavior.h_decay_seconds := 600 |} |}.

Definition slowClock : Clock :=
  new_Clock (Some {| opt_size := None; opt_fps := None; opt_margin := None;
                     opt_shape := None; opt_behavior := Some slowHands;
                     opt_style := None |}).

(** 07:42:13.250 local time again, one hour east of [morning]'s zone, and
    twelve hours after [morning]. *)
Definition morningEast : Date := mkDate 24133250 3600000.

(** Successive calls of [draw], one per date. *)
Fixpoint draws (dates : list Date) : Draw unit :=
  match dates with
  | nil => dret tt
  | now :: rest => draw now >> draws rest
  end.

(** The widget built with no options, once [run] has been called. *)
Definition readyWidget : Widget :=
  {| this_data := withQuads defaultClock;
     context_ := contextCalls defaultClock;
     buffer := Some (backgroundBuffer defaultClock
                       (quadsOf (shape_ defaultClock)));
     intervals := interval_ defaultClock :: nil |}.

(** ** The date getters *)

Lemma getMilliseconds_range (d : Date) : (0 <= getMilliseconds d < 1000)%Z.
Proof. unfold getMilliseconds. apply Z.mod_pos_bound. lia. Qed.

Lemma getSeconds_range (d : Date) : (0 <= getSeconds d < 60)%Z.
Proof. unfold getSeconds. apply Z.mod_pos_bound. lia. Qed.

Lemma getMinutes_range (d : Date) : (0 <= getMinutes d < 60)%Z.
Proof. unfold getMinutes. apply Z.mod_pos_bound. lia. Qed.

Lemma getHours_range (d : Date) : (0 <= getHours d < 24)%Z.
Proof. unfold getHours. apply Z.mod_pos_bound. lia. Qed.

Lemma subMinute_range (now : Date) : 0 <= subMinute now < 60.
Proof.
  unfold subMinute.
  destruct (getMilliseconds_range now) as [Hm0 Hm1].
  destruct (getSeconds_range now) as [Hs0 Hs1].
  apply IZR_le in Hm0. apply IZR_lt in Hm1.
  apply IZR_le in Hs0.
  assert (Hs2 : (getSeconds now <= 59)%Z) by lia.
  apply IZR_le in Hs2.
  lra.
Qed.

(** ** The methods compute the angle functions and leave [this] alone *)

Lemma computeSecondsAngle_result (now : Date) (this : Clock) :
  result (computeSecondsAngle now) this =
  secondsAngle (Behavior.second_hand (behavior_ this)) (subMinute now).
Proof.
  unfold result, computeSecondsAngle, secondsAngle, subMinute, bind, this_, ret.
  cbn. destruct (Rge_dec _ _); reflexivity.
Qed.

Lemma computeMinutesAngle_result (now : Date) (this : Clock) :
  result (computeMinutesAngle now) this =
  minutesAngle (Behavior.minute_hand (behavior_ this))
               (IZR (getMinutes now)) (subMinute now).
Proof. reflexivity. Qed.

Lemma computeHoursAngle_result (now : Date) (this : Clock) :
  result (computeHoursAngle now) this =
  hoursAngle (Behavior.hour_hand (behavior_ this))
             (IZR (getMinutes now)) (IZR (getHours now)) (subMinute now).
Proof. reflexivity. Qed.

Lemma computeSecondsAngle_after (now : Date) (this : Clock) :
  after (computeSecondsAngle now) this = this.
Proof.
  unfold after, computeSecondsAngle, bind, this_, ret.
  cbn. destruct (Rge_dec _ _); reflexivity.
Qed.

Lemma computeMinutesAngle_after (now : Date) (this : Clock) :
  after (computeMinutesAngle now) this = this.
Proof. reflexivity. Qed.

Lemma computeHoursAngle_after (now : Date) (this : Clock) :
  after (computeHoursAngle now) this = this.
Proof. reflexivity. Qed.

(** ** Facts about the decay rate and the exponential *)

Lemma rate_neg (decay decaySeconds : R) :
  0 < decay < 1 -> 0 < decaySeconds -> rate decay decaySeconds < 0.
Proof.
  intros [Hd0 Hd1] Hs. unfold rate, Math.log.
  assert (Hln : ln decay < 0).
  { rewrite <- ln_1. apply ln_increasing; assumption. }
  unfold Rdiv.
  assert (Hi : 0 < / decaySeconds) by (apply Rinv_0_lt_compat; assumption).
  replace 0 with (0 * / decaySeconds) by ring.
  apply Rmult_lt_compat_r; assumption.
Qed.

Lemma exp_le_1 (u : R) : u <= 0 -> exp u <= 1.
Proof.
  intros [Hu | Hu].
  - left. rewrite <- exp_0. apply exp_increasing. exact Hu.
  - subst u. rewrite exp_0. right. reflexivity.
Qed.

Lemma exp_lt_1 (u : R) : u < 0 -> exp u < 1.
Proof. intros Hu. rewrite <- exp_0. apply exp_increasing. exact Hu. Qed.

Lemma mult_neg_nonneg (l t : R) : l < 0 -> 0 <= t -> l * t <= 0.
Proof.
  intros Hl Ht.
  replace (l * t) with (- ((- l) * t)) by ring.
  assert (0 <= - l * t) by (apply Rmult_le_pos; lra).
  lra.
Qed.

Lemma mult_neg_pos (l t : R) : l < 0 -> 0 < t -> l * t < 0.
Proof.
  intros Hl Ht.
  replace (l * t) with (- ((- l) * t)) by ring.
  assert (0 < - l * t) by (apply Rmult_lt_0_compat; lra).
  lra.
Qed.

Lemma velocity_pos (cycle : R) : 0 < cycle -> 0 < 2 * Math.PI / cycle.
Proof.
  intros Hc. unfold Math.PI, Rdiv.
  apply Rmult_lt_0_compat.
  - generalize PI_RGT_0. lra.
  - apply Rinv_0_lt_compat. exact Hc.
Qed.

(** ** The two phases of the second hand *)

Lemma secondsAngle_sweep (b : Behavior.SecondHand) (t : R) :
  t < 60 - Behavior.pause_seconds b ->
  secondsAngle b t =
  2 * Math.PI / (60 - Behavior.pause_seconds b) * t *
  (1 - Math.exp (rate (Behavior.s_decay b) (Behavior.s_decay_seconds b) * t)).
Proof.
  intros Ht. unfold secondsAngle, rate. cbv zeta.
  destruct (Rge_dec t (60 - Behavior.pause_seconds b)) as [Hge | _].
  - exfalso. lra.
  - reflexivity.
Qed.

Lemma secondsAngle_pause (b : Behavior.SecondHand) (t : R) :
  t >= 60 - Behavior.pause_seconds b ->
  secondsAngle b t =
  2 * Math.PI / (60 - Behavior.pause_seconds b) *
  (t - (60 - Behavior.pause_seconds b)) *
  Math.exp (rate (Behavior.s_decay b) (Behavior.s_decay_seconds b) *
            (t - (60 - Behavior.pause_seconds b))).
Proof.
  intros Ht. unfold secondsAngle, rate. cbv zeta.
  destruct (Rge_dec t (60 - Behavior.pause_seconds b)) as [_ | Hn].
  - reflexivity.
  - contradiction.
Qed.

(** C1.  For every date and every clock whose second-hand parameters are
    valid, the seconds within the minute [t] lie in [0,60); with
    [cycle = 60 - pause_seconds], [v = 2 PI / cycle] and
    [lambda = ln decay / decay_seconds], [computeSecondsAngle] returns
    [v * t * (1 - exp (lambda * t))] when [t < cycle] and
    [v * x * exp (lambda * x)] with [x = t - cycle] when [t >= cycle]. *)
Theorem computeSecondsAngle_phases (this : Clock) (now : Date) :
  let b := Behavior.second_hand (behavior_ this) in
  let t := subMinute now in
  let cycle := 60 - Behavior.pause_seconds b in
  let v := 2 * Math.PI / cycle in
  let lambda := Math.log (Behavior.s_decay b) / Behavior.s_decay_seconds b in
  valid_second_hand b ->
  0 <= t < 60 /\
  (t < cycle ->
   result (computeSecondsAngle now) this =
   v * t * (1 - Math.exp (lambda * t))) /\
  (t >= cycle ->
   let x := t - cycle in
   result (computeSecondsAngle now) this = v * x * Math.exp (lambda * x)).
Proof.
  intros b t cycle v lambda _.
  split; [apply subMinute_range|].
  rewrite computeSecondsAngle_result. fold b. fold t.
  split; intros Ht.
  - apply secondsAngle_sweep. exact Ht.
  - apply secondsAngle_pause. exact Ht.
Qed.

Lemma computeSecondsAngle_phases_witness :
  result (computeSecondsAngle tenthOfSecond) defaultClock =
    2 * Math.PI / (60 - 1.5) * subMinute tenthOfSecond *
    (1 - Math.exp (Math.log 0.1 / 0.5 * subMinute tenthOfSecond)) /\
  result (computeSecondsAngle second59) defaultClock =
    2 * Math.PI / (60 - 1.5) * (subMinute second59 - (60 - 1.5)) *
    Math.exp (Math.log 0.1 / 0.5 * (subMinute second59 - (60 - 1.5))).
Proof.
  split.
  - apply (computeSecondsAngle_phases defaultClock tenthOfSecond).
    + unfold valid_second_hand. cbn. lra.
    + unfold subMinute. cbn. lra.
  - apply (computeSecondsAngle_phases defaultClock second59).
    + unfold valid_second_hand. cbn. lra.
    + unfold subMinute. cbn. lra.
Defined.

(** ** The minute hand *)

(** C2.  For every date and every clock whose minute-hand parameters are
    valid, with [m] the minute of the hour (in [0,60)), [t] the seconds
    within the minute (in [0,60)), [lambda = ln decay / decay_seconds]
    and [omega = 2 PI frequency], [computeMinutesAngle] returns
    [(PI/30) m + (PI/30) exp (lambda t) ((lambda/omega) sin (omega t) - cos (omega t))];
    and on the clock with the default parameters (frequency 6, decay 0.1,
    decay_seconds 0.3) at [t = 0], [m = 0] it returns exactly [- PI/30]. *)
Theorem computeMinutesAngle_formula (this : Clock) (now : Date) :
  let b := Behavior.minute_hand (behavior_ this) in
  let m := IZR (getMinutes now) in
  let t := subMinute now in
  let lambda := Math.log (Behavior.m_decay b) / Behavior.m_decay_seconds b in
  let omega := 2 * Math.PI * Behavior.frequency b in
  valid_minute_hand b ->
  (0 <= m < 60 /\ 0 <= t < 60) /\
  result (computeMinutesAngle now) this =
    Math.PI / 30 * m +
    Math.PI / 30 * Math.exp (lambda * t) *
      (lambda / omega * Math.sin (omega * t) - Math.cos (omega * t)) /\
  (b = Behavior.mkMinuteHand 0.1 0.3 6 -> m = 0 -> t = 0 ->
   result (computeMinutesAngle now) this = - (Math.PI / 30)).
Proof.
  intros b m t lambda omega _.
  split; [split; [|apply subMinute_range]|].
  { destruct (getMinutes_range now) as [H0 H1]. unfold m.
    apply IZR_le in H0. apply IZR_lt in H1. lra. }
  rewrite computeMinutesAngle_result. fold b m t.
  split; [reflexivity|].
  intros _ Hm Ht. unfold minutesAngle. cbv zeta.
  rewrite Hm, Ht. unfold Math.exp, Math.sin, Math.cos.
  rewrite !Rmult_0_r, exp_0, sin_0, cos_0. ring.
Qed.

Lemma computeMinutesAngle_formula_witness :
  result (computeMinutesAngle midnight) defaultClock = - (Math.PI / 30).
Proof.
  apply (computeMinutesAngle_formula defaultClock midnight).
  - unfold valid_minute_hand. cbn. lra.
  - reflexivity.
  - reflexivity.
  - unfold subMinute. cbn. lra.
Defined.

(** ** The hour hand *)

(** C3.  For every date and every clock whose hour-hand parameters are
    valid, with [h] the hour of the day, [m] the minute of the hour, [t]
    the seconds within the minute and [lambda = ln decay / decay_seconds],
    [computeHoursAngle] returns
    [(PI/360) (m + 60 h) + (PI/360) (lambda t - 1) exp (lambda t)]; at
    [t = 0] the correction term, the returned angle minus
    [(PI/360) (m + 60 h)], is exactly [- PI/360]. *)
Theorem computeHoursAngle_formula (this : Clock) (now : Date) :
  let b := Behavior.hour_hand (behavior_ this) in
  let h := IZR (getHours now) in
  let m := IZR (getMinutes now) in
  let t := subMinute now in
  let lambda := Math.log (Behavior.h_decay b) / Behavior.h_decay_seconds b in
  valid_hour_hand b ->
  (0 <= h < 24 /\ 0 <= m < 60 /\ 0 <= t < 60) /\
  result (computeHoursAngle now) this =
    Math.PI / 360 * (m + 60 * h) +
    Math.PI / 360 * (lambda * t - 1) * Math.exp (lambda * t) /\
  (t = 0 ->
   Math.PI / 360 * (lambda * t - 1) * Math.exp (lambda * t) = - (Math.PI / 360) /\
   result (computeHoursAngle now) this - Math.PI / 360 * (m + 60 * h) =
     - (Math.PI / 360)).
Proof.
  intros b h m t lambda _.
  split; [repeat split; try apply subMinute_range|].
  { destruct (getHours_range now) as [H0 _]. apply IZR_le in H0. exact H0. }
  { destruct (getHours_range now) as [_ H1]. apply IZR_lt in H1. exact H1. }
  { destruct (getMinutes_range now) as [H0 _]. apply IZR_le in H0. exact H0. }
  { destruct (getMinutes_range now) as [_ H1]. apply IZR_lt in H1. exact H1. }
  rewrite computeHoursAngle_result. fold b h m t.
  unfold hoursAngle. cbv zeta. fold lambda.
  split; [ring|].
  intros Ht. rewrite Ht. unfold Math.exp.
  rewrite Rmult_0_r, exp_0. split; ring.
Qed.

Lemma computeHoursAngle_formula_witness :
  result (computeHoursAngle midnight) defaultClock -
    Math.PI / 360 * (IZR (getMinutes midnight) + 60 * IZR (getHours midnight)) =
  - (Math.PI / 360).
Proof.
  apply (computeHoursAngle_formula defaultClock midnight).
  - unfold valid_hour_hand. cbn. lra.
  - unfold subMinute. cbn. lra.
Defined.

(** ** Rotation *)

Lemma sin_cos_square (a : R) :
  Math.sin a * Math.sin a + Math.cos a * Math.cos a = 1.
Proof. unfold Math.sin, Math.cos. exact (sin2_cos2 a). Qed.

(** C7.  For every point [p] and every angle [theta], rotating [p] by
    [theta] and then the result by [- theta] returns [p] (in exact real
    arithmetic), and the two calls leave the clock as it was. *)
Theorem rotate_round_trip (this : Clock) (p : Point) (theta : R) :
  result (q <- rotate p theta ;; rotate q (- theta)) this = p /\
  after (q <- rotate p theta ;; rotate q (- theta)) this = this.
Proof.
  split; [|reflexivity].
  destruct p as [px py].
  unfold result, bind, rotate, ret. cbn.
  pose proof (sin_cos_square theta) as Hsc.
  unfold Math.sin, Math.cos in *.
  rewrite cos_neg, sin_neg.
  f_equal.
  - transitivity (px * (sin theta * sin theta + cos theta * cos theta));
      [ring | rewrite Hsc; ring].
  - transitivity (py * (sin theta * sin theta + cos theta * cos theta));
      [ring | rewrite Hsc; ring].
Qed.

(** ** The angle methods are pure *)

Lemma subMinute_ext (now1 now2 : Date) :
  getSeconds now1 = getSeconds now2 ->
  getMilliseconds now1 = getMilliseconds now2 ->
  subMinute now1 = subMinute now2.
Proof. intros Hs Hms. unfold subMinute. rewrite Hs, Hms. reflexivity. Qed.

(** C9.  The three angle methods are pure: on two dates with equal hour,
    minute, second and millisecond components, and on two clocks with
    equal behavior parameters (whatever their other fields), each of
    [computeSecondsAngle], [computeMinutesAngle] and [computeHoursAngle]
    returns equal values; and each call leaves every field of the clock
    as it was. *)
Theorem angle_methods_pure (this1 this2 : Clock) (now1 now2 : Date) :
  behavior_ this1 = behavior_ this2 ->
  getHours now1 = getHours now2 ->
  getMinutes now1 = getMinutes now2 ->
  getSeconds now1 = getSeconds now2 ->
  getMilliseconds now1 = getMilliseconds now2 ->
  (result (computeSecondsAngle now1) this1 =
     result (computeSecondsAngle now2) this2 /\
   result (computeMinutesAngle now1) this1 =
     result (computeMinutesAngle now2) this2 /\
   result (computeHoursAngle now1) this1 =
     result (computeHoursAngle now2) this2) /\
  (after (computeSecondsAngle now1) this1 = this1 /\
   after (computeMinutesAngle now1) this1 = this1 /\
   after (computeHoursAngle now1) this1 = this1).
Proof.
  intros Hb Hh Hm Hs Hms.
  pose proof (subMinute_ext now1 now2 Hs Hms) as Ht.
  split.
  - rewrite !computeSecondsAngle_result, !computeMinutesAngle_result,
      !computeHoursAngle_result.
    rewrite Hb, Hh, Hm, Ht. repeat split.
  - split; [apply computeSecondsAngle_after|].
    split; [apply computeMinutesAngle_after | apply computeHoursAngle_after].
Qed.

Lemma angle_methods_pure_witness :
  (timeValue morning <> timeValue nextMorning /\
   style_ defaultClock <> style_ blueClock) /\
  (result (computeSecondsAngle morning) defaultClock =
     result (computeSecondsAngle nextMorning) blueClock /\
   result (computeMinutesAngle morning) defaultClock =
     result (computeMinutesAngle nextMorning) blueClock /\
   result (computeHoursAngle morning) defaultClock =
     result (computeHoursAngle nextMorning) blueClock) /\
  (after (computeSecondsAngle morning) defaultClock = defaultClock /\
   after (computeMinutesAngle morning) defaultClock = defaultClock /\
   after (computeHoursAngle morning) defaultClock = defaultClock).
Proof.
  split.
  - split; cbn; discriminate.
  - apply (angle_methods_pure defaultClock blueClock morning nextMorning);
      reflexivity.
Defined.

(** By contrast, [computeQuads] does assign to a field of the clock. *)
Lemma computeQuads_after_defaultClock :
  quads_ (after computeQuads defaultClock) <> quads_ defaultClock.
Proof. cbn. discriminate. Qed.

(** ** The second hand never points behind the mark *)

Lemma secondsAngle_nonneg (b : Behavior.SecondHand) (t : R) :
  valid_second_hand b -> 0 <= t -> 0 <= secondsAngle b t.
Proof.
  intros (Hd & Hs & Hp0 & Hp1) Ht.
  pose proof (rate_neg _ _ Hd Hs) as Hl.
  assert (Hc : 0 < 60 - Behavior.pause_seconds b) by lra.
  pose proof (velocity_pos _ Hc) as Hv.
  destruct (Rlt_dec t (60 - Behavior.pause_seconds b)) as [Hlt | Hge].
  - rewrite secondsAngle_sweep by exact Hlt.
    apply Rmult_le_pos; [apply Rmult_le_pos; lra|].
    pose proof (exp_le_1 _ (mult_neg_nonneg _ _ Hl Ht)) as He.
    unfold Math.exp. lra.
  - rewrite secondsAngle_pause by lra.
    apply Rmult_le_pos; [apply Rmult_le_pos; lra|].
    unfold Math.exp. left. apply exp_pos.
Qed.

(** C10.  For every date and every clock whose second-hand parameters are
    valid, [computeSecondsAngle] returns a nonnegative angle; more
    generally the angle is nonnegative at every real time [t] in [0,60),
    in the sweep branch and in the pause branch alike. *)
Theorem computeSecondsAngle_nonneg (this : Clock) (now : Date) :
  let b := Behavior.second_hand (behavior_ this) in
  valid_second_hand b ->
  0 <= result (computeSecondsAngle now) this /\
  (forall t : R, 0 <= t < 60 -> 0 <= secondsAngle b t).
Proof.
  intros b Hv. split.
  - rewrite computeSecondsAngle_result.
    apply secondsAngle_nonneg; [exact Hv | apply subMinute_range].
  - intros t [Ht _]. apply secondsAngle_nonneg; assumption.
Qed.

Lemma computeSecondsAngle_nonneg_witness :
  0 <= result (computeSecondsAngle second59) defaultClock.
Proof.
  apply (computeSecondsAngle_nonneg defaultClock second59).
  unfold valid_second_hand. cbn. lra.
Defined.

(** ** Continuity *)

Lemma secondsAngle_sweepAngle (b : Behavior.SecondHand) (t : R) :
  t < 60 - Behavior.pause_seconds b -> secondsAngle b t = sweepAngle b t.
Proof. intros Ht. rewrite secondsAngle_sweep by exact Ht. reflexivity. Qed.

Lemma secondsAngle_pauseAngle (b : Behavior.SecondHand) (t : R) :
  t >= 60 - Behavior.pause_seconds b -> secondsAngle b t = pauseAngle b t.
Proof. intros Ht. rewrite secondsAngle_pause by exact Ht. reflexivity. Qed.

Lemma minutesAngle_continuity (b : Behavior.MinuteHand) (minutes : R) :
  continuity (minutesAngle b minutes).
Proof.
  unfold minutesAngle, Math.exp, Math.sin, Math.cos. cbv zeta. reg.
Qed.

Lemma hoursAngle_continuity (b : Behavior.HourHand) (minutes hours : R) :
  continuity (hoursAngle b minutes hours).
Proof. unfold hoursAngle, Math.exp. cbv zeta. reg. Qed.

Lemma sweepAngle_continuity (b : Behavior.SecondHand) :
  continuity (sweepAngle b).
Proof. unfold sweepAngle, Math.exp. cbv zeta. reg. Qed.

Lemma pauseAngle_continuity (b : Behavior.SecondHand) :
  continuity (pauseAngle b).
Proof. unfold pauseAngle, Math.exp. cbv zeta. reg. Qed.

(** A function that agrees with a continuous one near a point is
    continuous at that point. *)
Lemma continuity_pt_near (f g : R -> R) (a d : R) :
  0 < d ->
  (forall u : R, Rabs (u - a) < d -> f u = g u) ->
  continuity_pt g a -> continuity_pt f a.
Proof.
  intros Hd Heq Hg eps Heps.
  destruct (Hg eps Heps) as (alp & Halp & Hlim).
  exists (Rmin alp d). split.
  - apply Rmin_pos; assumption.
  - intros u [HD Hu]. simpl in Hu |- *. unfold Rdist in *.
    assert (Hua : Rabs (u - a) < alp)
      by (eapply Rlt_le_trans; [exact Hu | apply Rmin_l]).
    assert (Hud : Rabs (u - a) < d)
      by (eapply Rlt_le_trans; [exact Hu | apply Rmin_r]).
    rewrite (Heq u Hud).
    rewrite (Heq a) by (unfold Rminus; rewrite Rplus_opp_r, Rabs_R0; exact Hd).
    apply (Hlim u). split; [exact HD | exact Hua].
Qed.

Lemma secondsAngle_continuity_pt (b : Behavior.SecondHand) (t : R) :
  t <> 60 - Behavior.pause_seconds b -> continuity_pt (secondsAngle b) t.
Proof.
  intros Hne.
  destruct (Rlt_dec t (60 - Behavior.pause_seconds b)) as [Hlt | Hnlt].
  - apply (continuity_pt_near _ (sweepAngle b) t
             (60 - Behavior.pause_seconds b - t)); [lra | | apply sweepAngle_continuity].
    intros u Hu. apply secondsAngle_sweepAngle.
    apply Rabs_def2 in Hu. lra.
  - apply (continuity_pt_near _ (pauseAngle b) t
             (t - (60 - Behavior.pause_seconds b))); [lra | | apply pauseAngle_continuity].
    intros u Hu. apply secondsAngle_pauseAngle.
    apply Rabs_def2 in Hu. lra.
Qed.

(** The value the sweep formula reaches at the end of the cycle. *)
Lemma sweepAngle_cycle_pos (b : Behavior.SecondHand) :
  valid_second_hand b -> 0 < sweepAngle b (60 - Behavior.pause_seconds b).
Proof.
  intros (Hd & Hs & Hp0 & Hp1).
  pose proof (rate_neg _ _ Hd Hs) as Hl.
  assert (Hc : 0 < 60 - Behavior.pause_seconds b) by lra.
  pose proof (velocity_pos _ Hc) as Hv.
  unfold sweepAngle. cbv zeta.
  apply Rmult_lt_0_compat; [apply Rmult_lt_0_compat; assumption|].
  pose proof (exp_lt_1 _ (mult_neg_pos _ _ Hl Hc)) as He.
  unfold rate in He. unfold Math.exp. lra.
Qed.

Lemma pauseAngle_cycle (b : Behavior.SecondHand) :
  pauseAngle b (60 - Behavior.pause_seconds b) = 0.
Proof.
  unfold pauseAngle. cbv zeta.
  replace (60 - Behavior.pause_seconds b - (60 - Behavior.pause_seconds b))
    with 0 by ring.
  ring.
Qed.

Lemma secondsAngle_cycle (b : Behavior.SecondHand) :
  secondsAngle b (60 - Behavior.pause_seconds b) = 0.
Proof.
  rewrite secondsAngle_pauseAngle by (right; reflexivity).
  apply pauseAngle_cycle.
Qed.

(** Coming from below, the seconds angle tends to the value of the sweep
    formula at the end of the cycle. *)
Lemma secondsAngle_left_limit (b : Behavior.SecondHand) :
  limit1_in (secondsAngle b) (fun t => t < 60 - Behavior.pause_seconds b)
    (sweepAngle b (60 - Behavior.pause_seconds b))
    (60 - Behavior.pause_seconds b).
Proof.
  intros eps Heps.
  destruct (sweepAngle_continuity b (60 - Behavior.pause_seconds b) eps Heps)
    as (alp & Halp & Hlim).
  exists alp. split; [exact Halp|].
  intros u [Hu Hdist].
  rewrite (secondsAngle_sweepAngle b u Hu).
  apply Hlim. split; [|exact Hdist].
  split; [exact I | lra].
Qed.

Lemma secondsAngle_not_continuous (b : Behavior.SecondHand) :
  valid_second_hand b ->
  ~ continuity_pt (secondsAngle b) (60 - Behavior.pause_seconds b).
Proof.
  intros Hv Hcont.
  pose proof (sweepAngle_cycle_pos b Hv) as HJ.
  set (c := 60 - Behavior.pause_seconds b) in *.
  set (J := sweepAngle b c) in *.
  assert (Heps : J / 2 > 0) by lra.
  destruct (Hcont (J / 2) Heps) as (a1 & Ha1 & H1).
  destruct (secondsAngle_left_limit b (J / 2) Heps) as (a2 & Ha2 & H2).
  fold c in H2. fold J in H2.
  pose proof (Rmin_pos a1 a2 Ha1 Ha2) as Hmin.
  pose proof (Rmin_l a1 a2) as Hl1.
  pose proof (Rmin_r a1 a2) as Hl2.
  set (u := c - Rmin a1 a2 / 2).
  assert (Hdist : Rabs (u - c) < Rmin a1 a2).
  { unfold u. replace (c - Rmin a1 a2 / 2 - c) with (- (Rmin a1 a2 / 2)) by ring.
    rewrite Rabs_Ropp, Rabs_pos_eq; lra. }
  assert (Hu1 : Rabs (secondsAngle b u - secondsAngle b c) < J / 2).
  { apply (H1 u). split.
    - split; [exact I | unfold u; lra].
    - simpl. unfold Rdist. lra. }
  assert (Hu2 : Rabs (secondsAngle b u - J) < J / 2).
  { apply (H2 u). split.
    - unfold u. lra.
    - simpl. unfold Rdist. lra. }
  unfold c in Hu1. rewrite secondsAngle_cycle in Hu1.
  apply Rabs_def2 in Hu1. apply Rabs_def2 in Hu2. lra.
Qed.

(** The jump of the seconds angle as a function of a real time: at
    [t = cycle] the pause formula and the angle are 0, the sweep formula's
    value there is nonzero and is the limit of the angle from below, so
    the angle is not continuous at [t = cycle]. *)
Lemma secondsAngle_jump_at_cycle (b : Behavior.SecondHand) :
  let cycle := 60 - Behavior.pause_seconds b in
  let v := 2 * Math.PI / cycle in
  let lambda := Math.log (Behavior.s_decay b) / Behavior.s_decay_seconds b in
  valid_second_hand b ->
  (let x := cycle - cycle in v * x * Math.exp (lambda * x) = 0) /\
  secondsAngle b cycle = 0 /\
  v * cycle * (1 - Math.exp (lambda * cycle)) <> 0 /\
  limit1_in (secondsAngle b) (fun t => t < cycle)
    (v * cycle * (1 - Math.exp (lambda * cycle))) cycle /\
  ~ continuity_pt (secondsAngle b) cycle.
Proof.
  intros cycle v lambda Hv.
  split; [exact (pauseAngle_cycle b)|].
  split; [exact (secondsAngle_cycle b)|].
  split; [apply Rgt_not_eq; exact (sweepAngle_cycle_pos b Hv)|].
  split; [exact (secondsAngle_left_limit b)|].
  exact (secondsAngle_not_continuous b Hv).
Qed.

(** The end of the cycle is a time the clock does sample: with the
    default parameters the hand is on the mark at 58.500 seconds. *)
Lemma computeSecondsAngle_endOfCycle :
  result (computeSecondsAngle endOfCycle) defaultClock = 0.
Proof.
  rewrite computeSecondsAngle_result.
  replace (subMinute endOfCycle)
    with (60 - Behavior.pause_seconds
                 (Behavior.second_hand (behavior_ defaultClock))).
  - apply secondsAngle_cycle.
  - unfold subMinute. cbn. lra.
Qed.

(** Continuity of the three angles as functions of a real time: the
    minutes and hours angles everywhere, the seconds angle everywhere but
    at [cycle]. *)
Lemma angles_continuity (b : Behavior.t) (minutes hours : R) :
  let cycle := 60 - Behavior.pause_seconds (Behavior.second_hand b) in
  valid_second_hand (Behavior.second_hand b) ->
  valid_minute_hand (Behavior.minute_hand b) ->
  valid_hour_hand (Behavior.hour_hand b) ->
  (forall t : R, continuity_pt (minutesAngle (Behavior.minute_hand b) minutes) t) /\
  (forall t : R,
     continuity_pt (hoursAngle (Behavior.hour_hand b) minutes hours) t) /\
  (forall t : R,
     t <> cycle -> continuity_pt (secondsAngle (Behavior.second_hand b)) t) /\
  ~ continuity_pt (secondsAngle (Behavior.second_hand b)) cycle.
Proof.
  intros cycle Hs _ _.
  split; [exact (minutesAngle_continuity _ minutes)|].
  split; [exact (hoursAngle_continuity _ minutes hours)|].
  split; [exact (secondsAngle_continuity_pt _)|].
  exact (secondsAngle_not_continuous _ Hs).
Qed.

(** ** Settling *)

Lemma delta_pos (n : R) : 0 < n -> 0 < Math.PI / n.
Proof.
  intros Hn. unfold Math.PI, Rdiv.
  apply Rmult_lt_0_compat; [exact PI_RGT_0 | apply Rinv_0_lt_compat; exact Hn].
Qed.

Lemma wobble_bound (k a : R) :
  Rabs (k * Math.sin a - Math.cos a) <= 1 + Rabs k.
Proof.
  unfold Math.sin, Math.cos.
  assert (Hks : Rabs (k * sin a) <= Rabs k).
  { rewrite Rabs_mult. rewrite <- (Rmult_1_r (Rabs k)) at 2.
    apply Rmult_le_compat_l; [apply Rabs_pos|].
    apply Rabs_le. apply SIN_bound. }
  assert (Hc : Rabs (cos a) <= 1) by (apply Rabs_le; apply COS_bound).
  unfold Rminus.
  eapply Rle_trans; [apply Rabs_triang|].
  rewrite Rabs_Ropp. lra.
Qed.

Lemma minutesAngle_deviation (b : Behavior.MinuteHand) (minutes t : R) :
  let lambda := rate (Behavior.m_decay b) (Behavior.m_decay_seconds b) in
  let omega := 2 * Math.PI * Behavior.frequency b in
  Rabs (minutesAngle b minutes t - Math.PI / 30 * minutes) <=
  Math.PI / 30 * (1 + Rabs (lambda / omega)) * Math.exp (lambda * t).
Proof.
  intros lambda omega.
  unfold minutesAngle. cbv zeta. fold (rate (Behavior.m_decay b) (Behavior.m_decay_seconds b)).
  fold lambda. fold omega.
  replace (Math.PI / 30 * minutes +
           Math.PI / 30 * Math.exp (lambda * t) *
           (lambda / omega * Math.sin (omega * t) - Math.cos (omega * t)) -
           Math.PI / 30 * minutes)
    with (Math.PI / 30 * Math.exp (lambda * t) *
          (lambda / omega * Math.sin (omega * t) - Math.cos (omega * t))) by ring.
  pose proof (delta_pos 30 ltac:(lra)) as Hd.
  assert (He : 0 < Math.exp (lambda * t)) by apply exp_pos.
  rewrite !Rabs_mult.
  rewrite (Rabs_pos_eq (Math.PI / 30)) by lra.
  rewrite (Rabs_pos_eq (Math.exp (lambda * t))) by lra.
  pose proof (wobble_bound (lambda / omega) (omega * t)) as Hw.
  rewrite (Rmult_assoc (Math.PI / 30) (1 + _)).
  rewrite (Rmult_comm (1 + _)).
  rewrite <- Rmult_assoc.
  apply Rmult_le_compat_l; [|exact Hw].
  apply Rmult_le_pos; lra.
Qed.

Lemma hoursAngle_deviation (b : Behavior.HourHand) (minutes hours t : R) :
  let lambda := rate (Behavior.h_decay b) (Behavior.h_decay_seconds b) in
  valid_hour_hand b -> 0 <= t ->
  Rabs (hoursAngle b minutes hours t - Math.PI / 360 * (minutes + 60 * hours)) =
  Math.PI / 360 * (1 - lambda * t) * Math.exp (lambda * t).
Proof.
  intros lambda [Hdc Hs] Ht.
  pose proof (rate_neg _ _ Hdc Hs) as Hl. fold lambda in Hl.
  pose proof (mult_neg_nonneg _ _ Hl Ht) as Hlt.
  unfold hoursAngle. cbv zeta.
  fold (rate (Behavior.h_decay b) (Behavior.h_decay_seconds b)). fold lambda.
  replace ((minutes + 60 * hours) * (Math.PI / 360) +
           Math.PI / 360 * (lambda * t - 1) * Math.exp (lambda * t) -
           Math.PI / 360 * (minutes + 60 * hours))
    with (- (Math.PI / 360 * (1 - lambda * t) * Math.exp (lambda * t))) by ring.
  rewrite Rabs_Ropp. apply Rabs_pos_eq.
  pose proof (delta_pos 360 ltac:(lra)) as Hd.
  apply Rmult_le_pos; [apply Rmult_le_pos; lra|].
  left. apply exp_pos.
Qed.

Lemma hoursAngle_deviation_minute (b : Behavior.HourHand) (minutes hours t : R) :
  let lambda := rate (Behavior.h_decay b) (Behavior.h_decay_seconds b) in
  valid_hour_hand b -> 0 <= t < 60 ->
  Rabs (hoursAngle b minutes hours t - Math.PI / 360 * (minutes + 60 * hours)) <=
  Math.PI / 360 * (1 + 60 * Rabs lambda) * Math.exp (lambda * t).
Proof.
  intros lambda Hv [Ht0 Ht1].
  rewrite hoursAngle_deviation by assumption. fold lambda.
  destruct Hv as [Hdc Hs].
  pose proof (rate_neg _ _ Hdc Hs) as Hl. fold lambda in Hl.
  rewrite (Rabs_left lambda) by exact Hl.
  pose proof (delta_pos 360 ltac:(lra)) as Hd.
  apply Rmult_le_compat_r; [left; apply exp_pos|].
  apply Rmult_le_compat_l; [lra|].
  assert (0 <= (- lambda) * (60 - t)) by (apply Rmult_le_pos; lra).
  lra.
Qed.

Lemma hoursAngle_deviation_half (b : Behavior.HourHand) (minutes hours t : R) :
  let lambda := rate (Behavior.h_decay b) (Behavior.h_decay_seconds b) in
  valid_hour_hand b -> 0 <= t ->
  Rabs (hoursAngle b minutes hours t - Math.PI / 360 * (minutes + 60 * hours)) <=
  Math.PI / 360 * 2 * Math.exp (lambda / 2 * t).
Proof.
  intros lambda Hv Ht.
  rewrite hoursAngle_deviation by assumption. fold lambda.
  pose proof (delta_pos 360 ltac:(lra)) as Hd.
  rewrite !(Rmult_assoc (Math.PI / 360)).
  apply Rmult_le_compat_l; [lra|].
  unfold Math.exp.
  replace (lambda * t) with (lambda / 2 * t + lambda / 2 * t) by field.
  rewrite exp_plus.
  pose proof (exp_ineq1_le (- (lambda / 2 * t))) as Hi.
  rewrite exp_Ropp in Hi.
  pose proof (exp_pos (lambda / 2 * t)) as Hp.
  set (E := exp (lambda / 2 * t)) in *.
  assert (HE : (1 + - (lambda / 2 * t)) * E <= 1).
  { replace 1 with (/ E * E) at 2 by (field; lra).
    apply Rmult_le_compat_r; lra. }
  replace ((1 - (lambda / 2 * t + lambda / 2 * t)) * (E * E))
    with (((1 + - (lambda / 2 * t)) * E * 2 - E) * E) by ring.
  apply Rmult_le_compat_r; lra.
Qed.

Lemma decay_vanishes (l K eps : R) :
  l < 0 -> 0 < K -> 0 < eps ->
  exists T : R, 0 <= T /\ forall t : R, T < t -> K * Math.exp (l * t) < eps.
Proof.
  intros Hl HK Heps.
  exists (Rmax 0 (ln (eps / K) / l)). split; [apply Rmax_l|].
  intros t Ht.
  pose proof (Rmax_r 0 (ln (eps / K) / l)) as Hr.
  assert (HeK : 0 < eps / K) by (apply Rdiv_lt_0_compat; assumption).
  assert (Hlt : l * t < ln (eps / K)).
  { assert (H0 : l * (t - ln (eps / K) / l) < 0) by (apply mult_neg_pos; lra).
    replace (l * (t - ln (eps / K) / l)) with (l * t - ln (eps / K)) in H0
      by (field; lra).
    lra. }
  apply exp_increasing in Hlt. rewrite exp_ln in Hlt by exact HeK.
  unfold Math.exp.
  replace eps with (K * (eps / K)) by (field; lra).
  apply Rmult_lt_compat_l; assumption.
Qed.

(** Bounds on the deviations from the targets as functions of a real
    time in [0,60), and their limits as the time grows without bound. *)
Lemma angles_settle
    (bm : Behavior.MinuteHand) (bh : Behavior.HourHand) (minutes hours : R) :
  let lm := Math.log (Behavior.m_decay bm) / Behavior.m_decay_seconds bm in
  let omega := 2 * Math.PI * Behavior.frequency bm in
  let lh := Math.log (Behavior.h_decay bh) / Behavior.h_decay_seconds bh in
  valid_minute_hand bm -> valid_hour_hand bh ->
  (forall t : R, 0 <= t < 60 ->
     Rabs (minutesAngle bm minutes t - Math.PI / 30 * minutes) <=
       Math.PI / 30 * (1 + Rabs (lm / omega)) * Math.exp (lm * t) /\
     Rabs (hoursAngle bh minutes hours t -
           Math.PI / 360 * (minutes + 60 * hours)) <=
       Math.PI / 360 * (1 + 60 * Rabs lh) * Math.exp (lh * t)) /\
  (forall eps : R, 0 < eps ->
     exists T : R, forall t : R, T < t ->
       Math.exp (lm * t) < eps /\ Math.exp (lh * t) < eps) /\
  (forall eps : R, 0 < eps ->
     exists T : R, forall t : R, T < t ->
       Rabs (minutesAngle bm minutes t - Math.PI / 30 * minutes) < eps /\
       Rabs (hoursAngle bh minutes hours t -
             Math.PI / 360 * (minutes + 60 * hours)) < eps).
Proof.
  intros lm omega lh Hm Hh.
  assert (Hlm : lm < 0) by (destruct Hm as (Hd & Hs & _); exact (rate_neg _ _ Hd Hs)).
  assert (Hlh : lh < 0) by (destruct Hh as (Hd & Hs); exact (rate_neg _ _ Hd Hs)).
  split; [|split].
  - intros t Ht. split.
    + apply minutesAngle_deviation.
    + apply hoursAngle_deviation_minute; assumption.
  - intros eps Heps.
    destruct (decay_vanishes lm 1 eps Hlm Rlt_0_1 Heps) as (T1 & _ & H1).
    destruct (decay_vanishes lh 1 eps Hlh Rlt_0_1 Heps) as (T2 & _ & H2).
    exists (Rmax T1 T2). intros t Ht.
    pose proof (Rmax_l T1 T2). pose proof (Rmax_r T1 T2).
    specialize (H1 t ltac:(lra)). specialize (H2 t ltac:(lra)).
    split; lra.
  - intros eps Heps.
    pose proof (delta_pos 30 ltac:(lra)) as Hd30.
    pose proof (delta_pos 360 ltac:(lra)) as Hd360.
    assert (HK1 : 0 < Math.PI / 30 * (1 + Rabs (lm / omega))).
    { apply Rmult_lt_0_compat; [exact Hd30|].
      pose proof (Rabs_pos (lm / omega)). lra. }
    assert (HK2 : 0 < Math.PI / 360 * 2) by lra.
    assert (Hlh2 : lh / 2 < 0) by lra.
    destruct (decay_vanishes lm _ eps Hlm HK1 Heps) as (T1 & _ & H1).
    destruct (decay_vanishes (lh / 2) _ eps Hlh2 HK2 Heps) as (T2 & HT2 & H2).
    exists (Rmax T1 T2). intros t Ht.
    pose proof (Rmax_l T1 T2). pose proof (Rmax_r T1 T2).
    specialize (H1 t ltac:(lra)). specialize (H2 t ltac:(lra)).
    split.
    + eapply Rle_lt_trans; [apply minutesAngle_deviation | exact H1].
    + eapply Rle_lt_trans; [|exact H2].
      apply hoursAngle_deviation_half; [exact Hh | lra].
Qed.

(** ** The default second hand a tenth of a second into the minute *)

Lemma PI_bounds : 3.1415 < Math.PI < 3.1421.
Proof.
  unfold Math.PI.
  destruct (PI_2_3_7_ineq 1) as [Hlo Hhi].
  unfold sum_f_R0, tg_alt, PI_2_3_7_tg, Ratan_seq in Hlo, Hhi.
  cbn [Nat.mul Nat.add pow INR] in Hlo, Hhi.
  split; lra.
Qed.

Lemma exp_fifth_power (a : R) :
  exp a * exp a * exp a * exp a * exp a = exp (5 * a).
Proof. rewrite <- !exp_plus. f_equal. ring. Qed.

Lemma fifth_power_le (u v : R) :
  0 <= u <= v -> u * u * u * u * u <= v * v * v * v * v.
Proof.
  intros [Hu Huv].
  assert (H2 : 0 <= u * u <= v * v) by (split; nra).
  assert (H3 : 0 <= u * u * u <= v * v * v) by (split; nra).
  assert (H4 : 0 <= u * u * u * u <= v * v * v * v) by (split; nra).
  nra.
Qed.

(** [exp (lambda t)] at [t = 0.1] with the default parameters is the
    fifth root of one tenth. *)
Lemma default_decay_factor :
  0.63 < Math.exp (Math.log 0.1 / 0.5 * 0.1) < 0.632.
Proof.
  unfold Math.exp, Math.log.
  set (E := exp (ln 0.1 / 0.5 * 0.1)).
  assert (HE : 0 < E) by apply exp_pos.
  assert (H5 : E * E * E * E * E = 0.1).
  { unfold E. rewrite exp_fifth_power.
    replace (5 * (ln 0.1 / 0.5 * 0.1)) with (ln 0.1) by lra.
    apply exp_ln. lra. }
  split.
  - destruct (Rlt_le_dec 0.63 E) as [H | H]; [exact H | exfalso].
    pose proof (fifth_power_le E 0.63 (conj (Rlt_le _ _ HE) H)) as Hp.
    rewrite H5 in Hp. lra.
  - destruct (Rlt_le_dec E 0.632) as [H | H]; [exact H | exfalso].
    pose proof (fifth_power_le 0.632 E ltac:(lra)) as Hp.
    rewrite H5 in Hp. lra.
Qed.

Lemma subMinute_tenthOfSecond : subMinute tenthOfSecond = 0.1.
Proof. unfold subMinute. cbn. lra. Qed.

Lemma default_seconds_angle_tenth :
  result (computeSecondsAngle tenthOfSecond) defaultClock =
  2 * Math.PI / (60 - 1.5) * 0.1 * (1 - Math.exp (Math.log 0.1 / 0.5 * 0.1)).
Proof.
  rewrite computeSecondsAngle_result, subMinute_tenthOfSecond.
  rewrite secondsAngle_sweep by (cbn; lra).
  reflexivity.
Qed.

Lemma default_seconds_angle_tenth_bounds :
  0.00394 < result (computeSecondsAngle tenthOfSecond) defaultClock < 0.00398.
Proof.
  rewrite default_seconds_angle_tenth.
  pose proof PI_bounds as [Hp0 Hp1].
  pose proof default_decay_factor as [He0 He1].
  set (E := Math.exp (Math.log 0.1 / 0.5 * 0.1)) in *.
  set (P := Math.PI) in *.
  replace (2 * P / (60 - 1.5) * 0.1 * (1 - E)) with (P * (1 - E) / 292.5) by lra.
  assert (H1 : 3.1415 * 0.368 < P * (1 - E)) by nra.
  assert (H2 : P * (1 - E) < 3.1421 * 0.37) by nra.
  lra.
Qed.

(** C5, as stated, fails: on the clock built with the default behavior
    ([pause_seconds] 1.5, [decay] 0.1, [decay_seconds] 0.5), at
    [t = 0.1], the seconds angle is not within 1e-4 of 0.00441. *)
Lemma default_seconds_angle_not_near_0_00441 :
  Behavior.second_hand (behavior_ defaultClock) =
    Behavior.mkSecondHand 1.5 0.1 0.5 /\
  subMinute tenthOfSecond = 0.1 /\
  ~ Rabs (result (computeSecondsAngle tenthOfSecond) defaultClock - 0.00441)
      <= 0.0001.
Proof.
  split; [reflexivity|].
  split; [exact subMinute_tenthOfSecond|].
  intros Habs.
  pose proof default_seconds_angle_tenth_bounds as [_ Hhi].
  pose proof (Rle_abs
    (- (result (computeSecondsAngle tenthOfSecond) defaultClock - 0.00441))) as Hle.
  rewrite Rabs_Ropp in Hle.
  lra.
Qed.

(** C5, amended.  On the clock built with the default behavior
    ([pause_seconds] 1.5, [decay] 0.1, [decay_seconds] 0.5), at
    [t = 0.1], the seconds angle is
    [v * 0.1 * (1 - exp (lambda * 0.1))] with [v = 2 PI / 58.5], which is
    within 1e-4 of 0.1074, and [lambda = ln 0.1 / 0.5]; it is within 1e-4
    of the literal value 0.00396 radians. *)
Theorem default_seconds_angle_near_0_00396 :
  Behavior.second_hand (behavior_ defaultClock) =
    Behavior.mkSecondHand 1.5 0.1 0.5 /\
  subMinute tenthOfSecond = 0.1 /\
  result (computeSecondsAngle tenthOfSecond) defaultClock =
    2 * Math.PI / 58.5 * 0.1 * (1 - Math.exp (Math.log 0.1 / 0.5 * 0.1)) /\
  Rabs (2 * Math.PI / 58.5 - 0.1074) <= 0.0001 /\
  Rabs (result (computeSecondsAngle tenthOfSecond) defaultClock - 0.00396)
    <= 0.0001.
Proof.
  split; [reflexivity|].
  split; [exact subMinute_tenthOfSecond|].
  split.
  { rewrite default_seconds_angle_tenth.
    replace (60 - 1.5) with 58.5 by lra. reflexivity. }
  split.
  - pose proof PI_bounds as [Hp0 Hp1]. apply Rabs_le. lra.
  - pose proof default_seconds_angle_tenth_bounds as [Hlo Hhi].
    apply Rabs_le. lra.
Qed.

(** ** More on rotation *)

Lemma rotate_result (this : Clock) (p : Point) (angle : R) :
  result (rotate p angle) this = rotated p angle.
Proof. reflexivity. Qed.

Lemma rotated_plus (p : Point) (a b : R) :
  rotated (rotated p a) b = rotated p (a + b).
Proof.
  destruct p as [px py]. unfold rotated, Math.cos, Math.sin. cbn.
  rewrite cos_plus, sin_plus. f_equal; ring.
Qed.

(** X1.  Rotating a point by [a] and the result by [b] is rotating it by
    [a + b]. *)
Theorem rotate_compose (this : Clock) (p : Point) (a b : R) :
  result (q <- rotate p a ;; rotate q b) this = result (rotate p (a + b)) this.
Proof.
  rewrite rotate_result. rewrite <- rotated_plus. reflexivity.
Qed.

(** X2.  [rotate] is an isometry that fixes the origin: it keeps the
    distance between any two points and the distance of a point to the
    centre of the clock (stated on the squares). *)
Theorem rotate_isometry (this : Clock) (p q : Point) (angle : R) :
  let p' := result (rotate p angle) this in
  let q' := result (rotate q angle) this in
  (x p' - x q') * (x p' - x q') + (y p' - y q') * (y p' - y q') =
  (x p - x q) * (x p - x q) + (y p - y q) * (y p - y q) /\
  x p' * x p' + y p' * y p' = x p * x p + y p * y p.
Proof.
  destruct p as [px py], q as [qx qy].
  unfold result, rotate, ret. cbn.
  pose proof (sin_cos_square angle) as Hsc.
  set (s := Math.sin angle) in *. set (c := Math.cos angle) in *.
  split.
  - transitivity (((px - qx) * (px - qx) + (py - qy) * (py - qy)) * (s * s + c * c));
      [ring | rewrite Hsc; ring].
  - transitivity ((px * px + py * py) * (s * s + c * c));
      [ring | rewrite Hsc; ring].
Qed.

Lemma rotated_full_turns (p : Point) (angle : R) (k : nat) :
  rotated p (angle + 2 * INR k * Math.PI) = rotated p angle /\
  rotated p (angle - 2 * INR k * Math.PI) = rotated p angle.
Proof.
  unfold rotated, Math.cos, Math.sin, Math.PI.
  split.
  - rewrite cos_period, sin_period. reflexivity.
  - rewrite <- (cos_period (angle - 2 * INR k * PI) k).
    rewrite <- (sin_period (angle - 2 * INR k * PI) k).
    replace (angle - 2 * INR k * PI + 2 * INR k * PI) with angle by ring.
    reflexivity.
Qed.

(** X3.  Adding or removing [k] full turns to the angle does not change
    where [rotate] puts a point. *)
Theorem rotate_full_turns (this : Clock) (p : Point) (angle : R) (k : nat) :
  result (rotate p (angle + 2 * INR k * Math.PI)) this =
  result (rotate p angle) this /\
  result (rotate p (angle - 2 * INR k * Math.PI)) this =
  result (rotate p angle) this.
Proof.
  rewrite !rotate_result. apply rotated_full_turns.
Qed.

(** ** More on the second hand *)

Lemma lag_bound (l u : R) :
  l < 0 -> u * exp (l * u) <= / (- l * exp 1).
Proof.
  intros Hl.
  pose proof (exp_ineq1_le (- (l * u) - 1)) as Hi.
  replace (1 + (- (l * u) - 1)) with (- l * u) in Hi by ring.
  unfold Rminus in Hi. rewrite exp_plus, !exp_Ropp in Hi.
  pose proof (exp_pos (l * u)) as He. pose proof (exp_pos 1) as H1.
  set (E := exp (l * u)) in *. set (e1 := exp 1) in *.
  assert (Hle : 0 < - l * e1) by (apply Rmult_lt_0_compat; lra).
  assert (Hm : - l * u * (E * e1) <= 1).
  { replace 1 with (/ E * / e1 * (E * e1)) by (field; lra).
    apply Rmult_le_compat_r; [|exact Hi].
    left. apply Rmult_lt_0_compat; assumption. }
  apply (Rmult_le_reg_l (- l * e1)); [exact Hle|].
  rewrite Rinv_r by lra. lra.
Qed.

Lemma sweepAngle_lt (b : Behavior.SecondHand) (t1 t2 : R) :
  valid_second_hand b -> 0 <= t1 -> t1 < t2 ->
  sweepAngle b t1 < sweepAngle b t2.
Proof.
  intros (Hd & Hs & Hp0 & Hp1) Ht1 Ht12.
  pose proof (rate_neg _ _ Hd Hs) as Hl. unfold rate in Hl.
  assert (Hc : 0 < 60 - Behavior.pause_seconds b) by lra.
  pose proof (velocity_pos _ Hc) as Hv.
  unfold sweepAngle. cbv zeta.
  set (l := Math.log (Behavior.s_decay b) / Behavior.s_decay_seconds b) in *.
  set (v := 2 * Math.PI / (60 - Behavior.pause_seconds b)) in *.
  unfold Math.exp.
  assert (He1 : exp (l * t1) <= 1) by (apply exp_le_1, mult_neg_nonneg; lra).
  assert (He2 : exp (l * t2) < exp (l * t1)).
  { apply exp_increasing.
    assert (l * (t2 - t1) < 0) by (apply mult_neg_pos; lra). lra. }
  rewrite !Rmult_assoc. apply Rmult_lt_compat_l; [exact Hv|].
  apply Rle_lt_trans with (t1 * (1 - exp (l * t2))).
  - apply Rmult_le_compat_l; lra.
  - apply Rmult_lt_compat_r; lra.
Qed.

(** The sweep as a function of a real time: strictly increasing and
    below a full turn. *)
Lemma secondsAngle_sweep_increasing (b : Behavior.SecondHand) :
  let cycle := 60 - Behavior.pause_seconds b in
  valid_second_hand b ->
  (forall t1 t2 : R,
     0 <= t1 -> t1 < t2 -> t2 < cycle ->
     secondsAngle b t1 < secondsAngle b t2) /\
  (forall t : R, 0 <= t -> t < cycle -> secondsAngle b t < 2 * Math.PI).
Proof.
  intros cycle Hv. split.
  - intros t1 t2 H1 H12 H2.
    rewrite !secondsAngle_sweepAngle by (fold cycle; lra).
    apply sweepAngle_lt; assumption.
  - intros t Ht0 Ht.
    rewrite secondsAngle_sweep by exact Ht.
    destruct Hv as (Hd & Hs & Hp0 & Hp1).
    pose proof (rate_neg _ _ Hd Hs) as Hl.
    assert (Hc : 0 < cycle) by (unfold cycle; lra).
    pose proof (velocity_pos _ Hc) as Hvel. fold cycle.
    pose proof (exp_pos (rate (Behavior.s_decay b) (Behavior.s_decay_seconds b) * t)) as He.
    unfold Math.exp.
    set (E := exp (rate (Behavior.s_decay b) (Behavior.s_decay_seconds b) * t)) in *.
    set (v := 2 * Math.PI / cycle) in *.
    assert (Hvc : v * cycle = 2 * Math.PI) by (unfold v; field; lra).
    assert (Hvt : 0 <= v * t) by (apply Rmult_le_pos; lra).
    assert (H1 : v * t * (1 - E) <= v * t).
    { rewrite <- (Rmult_1_r (v * t)) at 2. apply Rmult_le_compat_l; lra. }
    assert (H2 : v * t < v * cycle) by (apply Rmult_lt_compat_l; lra).
    lra.
Qed.

(** The lag of the seconds angle behind the uniform sweep, as a function
    of a real time. *)
Lemma secondsAngle_lag (b : Behavior.SecondHand) (t : R) :
  let cycle := 60 - Behavior.pause_seconds b in
  let v := 2 * Math.PI / cycle in
  let lambda := Math.log (Behavior.s_decay b) / Behavior.s_decay_seconds b in
  let bound := v / (- lambda * Math.exp 1) in
  valid_second_hand b -> 0 <= t ->
  (t < cycle -> v * t - bound <= secondsAngle b t <= v * t) /\
  (t >= cycle -> 0 <= secondsAngle b t <= bound).
Proof.
  intros cycle v lambda bound Hv Ht.
  pose proof (secondsAngle_nonneg b t Hv Ht) as Hnn.
  destruct Hv as (Hd & Hs & Hp0 & Hp1).
  pose proof (rate_neg _ _ Hd Hs) as Hl. unfold rate in Hl. fold lambda in Hl.
  assert (Hc : 0 < cycle) by (unfold cycle; lra).
  pose proof (velocity_pos _ Hc) as Hvel. fold v in Hvel.
  assert (Hb : forall u, v * u * Math.exp (lambda * u) <= bound).
  { intros u. pose proof (lag_bound lambda u Hl) as Hu.
    unfold bound, Math.exp, Rdiv. rewrite Rmult_assoc.
    apply Rmult_le_compat_l; lra. }
  split; intros Hphase.
  - rewrite secondsAngle_sweep by exact Hphase.
    fold cycle v. unfold rate. fold lambda.
    specialize (Hb t).
    pose proof (exp_pos (lambda * t)) as He. unfold Math.exp in *.
    assert (0 <= v * t * exp (lambda * t)).
    { apply Rmult_le_pos; [apply Rmult_le_pos|]; lra. }
    split; lra.
  - split; [exact Hnn|].
    rewrite secondsAngle_pause by exact Hphase.
    fold cycle v. unfold rate. fold lambda. apply Hb.
Qed.

(** ** Dates *)

Lemma localTime_laterBy (d : Date) (ms : Z) :
  localTime (laterBy d ms) = (localTime d + ms)%Z.
Proof. unfold localTime, laterBy. cbn. lia. Qed.

Lemma getMilliseconds_laterBy (d : Date) (k : Z) :
  getMilliseconds (laterBy d (1000 * k)) = getMilliseconds d.
Proof.
  unfold getMilliseconds. rewrite localTime_laterBy.
  rewrite (Z.mul_comm 1000 k). apply Z_mod_plus_full.
Qed.

Lemma getSeconds_laterBy (d : Date) (k : Z) :
  getSeconds (laterBy d (60000 * k)) = getSeconds d.
Proof.
  unfold getSeconds. rewrite localTime_laterBy.
  replace (localTime d + 60000 * k)%Z with (localTime d + (60 * k) * 1000)%Z by lia.
  rewrite Z.div_add by lia.
  rewrite (Z.mul_comm 60 k). apply Z_mod_plus_full.
Qed.

Lemma getMinutes_laterBy (d : Date) (k : Z) :
  getMinutes (laterBy d (3600000 * k)) = getMinutes d.
Proof.
  unfold getMinutes. rewrite localTime_laterBy.
  replace (localTime d + 3600000 * k)%Z with (localTime d + (60 * k) * 60000)%Z by lia.
  rewrite Z.div_add by lia.
  rewrite (Z.mul_comm 60 k). apply Z_mod_plus_full.
Qed.

Lemma getHours_laterBy (d : Date) (k : Z) :
  getHours (laterBy d (86400000 * k)) = getHours d.
Proof.
  unfold getHours. rewrite localTime_laterBy.
  replace (localTime d + 86400000 * k)%Z with (localTime d + (24 * k) * 3600000)%Z by lia.
  rewrite Z.div_add by lia.
  rewrite (Z.mul_comm 24 k). apply Z_mod_plus_full.
Qed.

Lemma subMinute_laterBy (d : Date) (k : Z) :
  subMinute (laterBy d (60000 * k)) = subMinute d.
Proof.
  apply subMinute_ext.
  - apply getSeconds_laterBy.
  - replace (60000 * k)%Z with (1000 * (60 * k))%Z by lia.
    apply getMilliseconds_laterBy.
Qed.

(** With the same time zone adjustment, the seconds angle repeats every
    minute, the minutes angle every hour and the hours angle every day. *)
Lemma angles_periodic (this : Clock) (now : Date) (k : Z) :
  result (computeSecondsAngle (laterBy now (60000 * k))) this =
    result (computeSecondsAngle now) this /\
  result (computeMinutesAngle (laterBy now (3600000 * k))) this =
    result (computeMinutesAngle now) this /\
  result (computeHoursAngle (laterBy now (86400000 * k))) this =
    result (computeHoursAngle now) this.
Proof.
  rewrite !computeSecondsAngle_result, !computeMinutesAngle_result,
    !computeHoursAngle_result.
  split; [|split].
  - rewrite subMinute_laterBy. reflexivity.
  - rewrite getMinutes_laterBy.
    replace (3600000 * k)%Z with (60000 * (60 * k))%Z by lia.
    rewrite subMinute_laterBy. reflexivity.
  - rewrite getHours_laterBy.
    replace (86400000 * k)%Z with (3600000 * (24 * k))%Z at 1 by lia.
    rewrite getMinutes_laterBy.
    replace (86400000 * k)%Z with (60000 * (1440 * k))%Z by lia.
    rewrite subMinute_laterBy. reflexivity.
Qed.

(** The getters split the local time into its components. *)
Lemma date_components (d : Date) :
  localTime d =
    (86400000 * (localTime d / 86400000) + 3600000 * getHours d +
     60000 * getMinutes d + 1000 * getSeconds d + getMilliseconds d)%Z /\
  1000 * subMinute d = IZR (localTime d mod 60000).
Proof.
  assert (HZ : (localTime d =
    86400000 * (localTime d / 86400000) + 3600000 * getHours d +
    60000 * getMinutes d + 1000 * getSeconds d + getMilliseconds d /\
    localTime d mod 60000 = 1000 * getSeconds d + getMilliseconds d)%Z).
  { unfold getHours, getMinutes, getSeconds, getMilliseconds.
    set (L := localTime d). Z.to_euclidean_division_equations. lia. }
  destruct HZ as [H1 H2]. split; [exact H1|].
  rewrite H2. unfold subMinute. rewrite plus_IZR, mult_IZR. lra.
Qed.

(** X7.  With valid parameters, at the start of a minute (seconds and
    milliseconds both 0) the second hand is on the mark, the minute hand
    is exactly one minute mark behind the current minute, and the hour
    hand is one minute's worth of angle behind its target. *)
Theorem start_of_minute (this : Clock) (now : Date) :
  valid_second_hand (Behavior.second_hand (behavior_ this)) ->
  valid_minute_hand (Behavior.minute_hand (behavior_ this)) ->
  valid_hour_hand (Behavior.hour_hand (behavior_ this)) ->
  getSeconds now = 0%Z -> getMilliseconds now = 0%Z ->
  result (computeSecondsAngle now) this = 0 /\
  result (computeMinutesAngle now) this =
    Math.PI / 30 * (IZR (getMinutes now) - 1) /\
  result (computeHoursAngle now) this =
    Math.PI / 360 * (IZR (getMinutes now) + 60 * IZR (getHours now) - 1).
Proof.
  intros (Hd & Hs & Hp0 & Hp1) _ _ Hsec Hms.
  assert (Ht : subMinute now = 0).
  { unfold subMinute. rewrite Hsec, Hms. lra. }
  rewrite computeSecondsAngle_result, computeMinutesAngle_result,
    computeHoursAngle_result, Ht.
  split; [|split].
  - rewrite secondsAngle_sweep by lra. ring.
  - unfold minutesAngle, Math.exp, Math.sin, Math.cos. cbv zeta.
    rewrite !Rmult_0_r, exp_0, sin_0, cos_0. ring.
  - unfold hoursAngle, Math.exp. cbv zeta.
    rewrite !Rmult_0_r, exp_0. ring.
Qed.

Lemma start_of_minute_witness :
  result (computeSecondsAngle midnight) defaultClock = 0 /\
  result (computeMinutesAngle midnight) defaultClock =
    Math.PI / 30 * (IZR (getMinutes midnight) - 1) /\
  result (computeHoursAngle midnight) defaultClock =
    Math.PI / 360 *
    (IZR (getMinutes midnight) + 60 * IZR (getHours midnight) - 1).
Proof.
  apply (start_of_minute defaultClock midnight).
  - unfold valid_second_hand. cbn. lra.
  - unfold valid_minute_hand. cbn. lra.
  - unfold valid_hour_hand. cbn. lra.
  - reflexivity.
  - reflexivity.
Defined.

(** ** The hour hand comes from behind *)

Lemma settle_term_lt (l t1 t2 : R) :
  l < 0 -> 0 <= t1 -> t1 < t2 ->
  (l * t1 - 1) * exp (l * t1) < (l * t2 - 1) * exp (l * t2).
Proof.
  intros Hl H1 H12.
  set (d := - l * (t2 - t1)).
  assert (Hd : 0 < d) by (unfold d; apply Rmult_lt_0_compat; lra).
  assert (Hu : 0 <= - l * t1) by (apply Rmult_le_pos; lra).
  pose proof (exp_ineq1 d ltac:(lra)) as He.
  pose proof (exp_pos (l * t2)) as Hp.
  assert (E1 : exp (l * t1) = exp d * exp (l * t2)).
  { rewrite <- exp_plus. f_equal. unfold d. ring. }
  rewrite E1.
  assert (Hk : 1 - l * t2 < (1 - l * t1) * exp d).
  { apply Rle_lt_trans with ((1 - l * t1) * (1 + d)).
    - assert (H0 : 0 <= - l * t1 * d) by (apply Rmult_le_pos; lra).
      replace ((1 - l * t1) * (1 + d)) with (1 - l * t2 + - l * t1 * d)
        by (unfold d; ring).
      lra.
    - apply Rmult_lt_compat_l; lra. }
  assert (Hm : (1 - l * t2) * exp (l * t2) <
               (1 - l * t1) * exp d * exp (l * t2))
    by (apply Rmult_lt_compat_r; assumption).
  lra.
Qed.

(** In exact arithmetic the hours angle, as a function of a real time,
    is strictly below its target and strictly increasing. *)
Lemma hoursAngle_from_behind (b : Behavior.HourHand) (minutes hours : R) :
  valid_hour_hand b ->
  (forall t : R,
     0 <= t ->
     hoursAngle b minutes hours t < Math.PI / 360 * (minutes + 60 * hours)) /\
  (forall t1 t2 : R,
     0 <= t1 -> t1 < t2 ->
     hoursAngle b minutes hours t1 < hoursAngle b minutes hours t2).
Proof.
  intros [Hd Hs].
  pose proof (rate_neg _ _ Hd Hs) as Hl. unfold rate in Hl.
  pose proof (delta_pos 360 ltac:(lra)) as Hdl.
  unfold hoursAngle. cbv zeta. unfold Math.exp.
  set (l := Math.log (Behavior.h_decay b) / Behavior.h_decay_seconds b) in *.
  split.
  - intros t Ht.
    pose proof (exp_pos (l * t)) as Hp.
    pose proof (mult_neg_nonneg _ _ Hl Ht) as Hlt.
    assert (Hneg : (l * t - 1) * exp (l * t) < 0).
    { replace ((l * t - 1) * exp (l * t))
        with (- ((1 - l * t) * exp (l * t))) by ring.
      assert (0 < (1 - l * t) * exp (l * t))
        by (apply Rmult_lt_0_compat; lra).
      lra. }
    assert (Hm : Math.PI / 360 * ((l * t - 1) * exp (l * t)) < 0).
    { replace 0 with (Math.PI / 360 * 0) by ring.
      apply Rmult_lt_compat_l; assumption. }
    lra.
  - intros t1 t2 H1 H12.
    pose proof (settle_term_lt l t1 t2 Hl H1 H12) as Hlt.
    assert (Hm : Math.PI / 360 * ((l * t1 - 1) * exp (l * t1)) <
                 Math.PI / 360 * ((l * t2 - 1) * exp (l * t2)))
      by (apply Rmult_lt_compat_l; assumption).
    lra.
Qed.

(** ** Calls on a context *)

Lemma received_nil (ctx : Context2D) (w : Widget) : received ctx nil w = w.
Proof.
  destruct w as [c l b i], ctx; unfold received; cbn.
  - rewrite app_nil_r. reflexivity.
  - destruct b as [[bw bh bl]|]; cbn; [rewrite app_nil_r|]; reflexivity.
Qed.

Lemma received_app (ctx : Context2D) (cs1 cs2 : list Canvas.Call) (w : Widget) :
  received ctx cs2 (received ctx cs1 w) = received ctx (cs1 ++ cs2) w.
Proof.
  destruct w as [c l b i], ctx; unfold received; cbn.
  - rewrite app_assoc. reflexivity.
  - destruct b as [[bw bh bl]|]; cbn; [rewrite app_assoc|]; reflexivity.
Qed.

Lemma received_this_data (ctx : Context2D) (cs : list Canvas.Call) (w : Widget) :
  this_data (received ctx cs w) = this_data w.
Proof. destruct ctx; reflexivity. Qed.

Lemma received_hasContext (ctx : Context2D) (cs : list Canvas.Call) (w : Widget) :
  hasContext ctx w -> hasContext ctx (received ctx cs w).
Proof.
  destruct ctx; cbn; [trivial|].
  destruct (buffer w); [discriminate | trivial].
Qed.

Lemma call_received (ctx : Context2D) (c : Canvas.Call) (w : Widget) :
  hasContext ctx w -> call ctx c w = Some (tt, received ctx (c :: nil) w).
Proof.
  destruct ctx; cbn; [reflexivity|].
  unfold call. destruct (buffer w); [reflexivity | intros H; contradiction H; reflexivity].
Qed.

Lemma call_no_buffer (c : Canvas.Call) (w : Widget) :
  buffer w = None -> call buffer_context c w = None.
Proof. intros H. unfold call. rewrite H. reflexivity. Qed.

Lemma dbind_Some {A B : Type} (m : Draw A) (k : A -> Draw B) (w w' : Widget) (a : A) :
  m w = Some (a, w') -> dbind m k w = k a w'.
Proof. intros H. unfold dbind. rewrite H. reflexivity. Qed.

Lemma dbind_None {A B : Type} (m : Draw A) (k : A -> Draw B) (w : Widget) :
  m w = None -> dbind m k w = None.
Proof. intros H. unfold dbind. rewrite H. reflexivity. Qed.

Lemma lift_pure {A : Type} (m : Method A) (w : Widget) :
  after m (this_data w) = this_data w ->
  lift m w = Some (result m (this_data w), w).
Proof.
  unfold lift, after, result. destruct w as [c l b i]. cbn.
  destruct (m c) as [a c']. cbn. intros ->. reflexivity.
Qed.

Lemma lift_this_ {A : Type} (f : Clock -> A) (w : Widget) :
  lift (this_ f) w = Some (f (this_data w), w).
Proof. apply (lift_pure (this_ f)). reflexivity. Qed.

Lemma lift_rotate (p : Point) (angle : R) (w : Widget) :
  lift (rotate p angle) w = Some (rotated p angle, w).
Proof. apply (lift_pure (rotate p angle)). reflexivity. Qed.

Lemma this_quads_Some (member : Quads -> Quad) (qs : Quads) (w : Widget) :
  quads_ (this_data w) = Some qs -> this_quads_ member w = Some (member qs, w).
Proof.
  intros H. unfold this_quads_.
  rewrite (dbind_Some _ _ _ _ _ (lift_this_ quads_ w)). rewrite H. reflexivity.
Qed.

Lemma this_quads_None (member : Quads -> Quad) (w : Widget) :
  quads_ (this_data w) = None -> this_quads_ member w = None.
Proof.
  intros H. unfold this_quads_.
  rewrite (dbind_Some _ _ _ _ _ (lift_this_ quads_ w)). rewrite H. reflexivity.
Qed.

Lemma dbind_assoc {A B C : Type} (m : Draw A) (k : A -> Draw B)
    (k' : B -> Draw C) (w : Widget) :
  dbind (dbind m k) k' w = dbind m (fun a => dbind (k a) k') w.
Proof. unfold dbind. destruct (m w) as [[a w']|]; reflexivity. Qed.

Lemma dbind_dret {A B : Type} (a : A) (k : A -> Draw B) (w : Widget) :
  dbind (dret a) k w = k a w.
Proof. reflexivity. Qed.

(** Running a method one action at a time. *)
Ltac step H := rewrite (dbind_Some _ _ _ _ _ H).
Ltac step_call :=
  match goal with
  | |- dbind (call ?ctx ?c) _ ?w = _ =>
      rewrite (dbind_Some _ _ _ _ _
                 (call_received ctx c w
                    ltac:(first [exact I | auto using received_hasContext])));
      try rewrite received_app
  | |- dbind (lift (this_ ?f)) _ ?w = _ =>
      rewrite (dbind_Some _ _ _ _ _ (lift_this_ f w))
  | |- dbind (lift (rotate ?p ?a)) _ ?w = _ =>
      rewrite (dbind_Some _ _ _ _ _ (lift_rotate p a w))
  end.

Lemma drawQuad_received (ctx : Context2D) (quad : Quad) (angle : R) (w : Widget) :
  hasContext ctx w ->
  drawQuad ctx quad angle w = Some (tt, received ctx (quadPath quad angle) w).
Proof.
  intros Hc. unfold drawQuad. cbv zeta.
  step_call. step_call. step_call.
  cbn [length for_ nth_error].
  repeat first
    [ match goal with
      | |- dbind (dbind _ _) _ _ = _ => rewrite dbind_assoc
      | |- dbind (dret _) _ _ = _ => rewrite dbind_dret
      end
    | step_call ].
  rewrite call_received by auto using received_hasContext.
  rewrite received_app. reflexivity.
Qed.

Lemma prepareContext_received (ctx : Context2D) (w : Widget) :
  hasContext ctx w ->
  prepareContext ctx w =
  Some (tt, received ctx (contextCalls (this_data w)) w).
Proof.
  intros Hc. unfold prepareContext. cbv zeta.
  repeat first
    [ match goal with
      | |- dbind (dbind _ _) _ _ = _ => rewrite dbind_assoc
      | |- dbind (dret _) _ _ = _ => rewrite dbind_dret
      end
    | step_call ].
  rewrite call_received by auto using received_hasContext.
  rewrite received_app, received_this_data. reflexivity.
Qed.

Lemma flat_map_seq_shift {A : Type} (f : nat -> list A) (n k : nat) :
  flat_map f (seq (S k) n) = flat_map (fun i => f (S i)) (seq k n).
Proof.
  revert k. induction n as [|n IH]; intros k; cbn [seq flat_map].
  - reflexivity.
  - rewrite IH. reflexivity.
Qed.

Lemma quadPath_ext (q : Quad) (a b : R) : a = b -> quadPath q a = quadPath q b.
Proof. intros ->. reflexivity. Qed.

Section Markers.
Variable ctx : Context2D.
Variable qs : Quads.

Lemma minute_markers_loop (angle s : R) (n : nat) :
  forall (j : nat) (a : R) (w : Widget),
    hasContext ctx w -> quads_ (this_data w) = Some qs ->
    for_ n j (fun _ a =>
                quad <~ this_quads_ q_minute_marker ;;
                drawQuad ctx quad (angle + a) >>
                call ctx Canvas.fill >>
                dret (a + s)) a w =
    Some (a + INR n * s,
          received ctx
            (flat_map (fun i =>
                         quadPath (q_minute_marker qs)
                                  (angle + (a + INR i * s)) ++
                         Canvas.fill :: nil)
                      (seq 0 n)) w).
Proof.
  induction n as [|n IH]; intros j a w Hc Hq.
  - cbn [for_ seq flat_map]. unfold dret. rewrite received_nil.
    do 2 f_equal. cbn [INR]. ring.
  - cbn [for_].
    rewrite (dbind_assoc (this_quads_ q_minute_marker)).
    rewrite (dbind_Some _ _ _ _ _ (this_quads_Some q_minute_marker qs w Hq)).
    rewrite dbind_assoc.
    rewrite (dbind_Some _ _ _ _ _ (drawQuad_received ctx _ _ w Hc)).
    rewrite dbind_assoc.
    step_call. rewrite dbind_dret.
    rewrite IH;
      [|auto using received_hasContext | rewrite received_this_data; exact Hq].
    rewrite received_app. f_equal. f_equal.
    + rewrite S_INR. ring.
    + f_equal. cbn [seq flat_map]. rewrite flat_map_seq_shift.
      f_equal.
      * f_equal. apply quadPath_ext. cbn [INR]. ring.
      * apply flat_map_ext. intros i. f_equal. apply quadPath_ext.
        rewrite S_INR. ring.
Qed.
End Markers.

Lemma for_S {S : Type} (n i : nat) (body : nat -> S -> Draw S) (s : S) :
  for_ (Datatypes.S n) i body s =
  dbind (body i s) (fun s' => for_ n (Datatypes.S i) body s').
Proof. reflexivity. Qed.

Ltac ctx_ok := first [exact I | auto using received_hasContext].
Ltac quads_ok Hq := rewrite ?received_this_data; exact Hq.

Ltac step_draw Hq :=
  first
    [ match goal with
      | |- dbind (dbind _ _) _ _ = _ => rewrite dbind_assoc
      | |- dbind (dret _) _ _ = _ => rewrite dbind_dret
      end
    | step_call
    | match goal with
      | |- dbind (this_quads_ ?m) _ ?w = _ =>
          rewrite (dbind_Some _ _ _ _ _
                     (this_quads_Some m _ w ltac:(quads_ok Hq)))
      | |- dbind (drawQuad ?ctx ?q ?a) _ ?w = _ =>
          rewrite (dbind_Some _ _ _ _ _
                     (drawQuad_received ctx q a w ltac:(ctx_ok)));
          try rewrite received_app
      | |- dbind (prepareContext ?ctx) _ ?w = _ =>
          rewrite (dbind_Some _ _ _ _ _
                     (prepareContext_received ctx w ltac:(ctx_ok)));
          try rewrite received_app
      end ].

Lemma hour_markers_loop (qs : Quads) (step : R) (n : nat) :
  forall (i : nat) (angle : R) (w : Widget),
    hasContext buffer_context w -> quads_ (this_data w) = Some qs ->
    for_ n i (fun _ angle =>
      hour_marker <~ lift (this_ (fun this => Style.hour_marker (style_ this))) ;;
      call buffer_context (Canvas.fillStyle hour_marker) >>
      quad <~ this_quads_ q_hour_marker ;;
      drawQuad buffer_context quad angle >>
      call buffer_context Canvas.fill >>
      minute_marker <~ lift (this_ (fun this => Style.minute_marker (style_ this))) ;;
      call buffer_context (Canvas.fillStyle minute_marker) >>
      for_ 4 0 (fun _ a =>
        quad <~ this_quads_ q_minute_marker ;;
        drawQuad buffer_context quad (angle + a) >>
        call buffer_context Canvas.fill >>
        dret (a + Math.PI / 30)) (Math.PI / 30) >>
      dret (angle + step)) angle w =
    Some (angle + INR n * step,
          received buffer_context
            (flat_map (fun i => hourBlockCalls (this_data w) qs
                                  (angle + INR i * step))
                      (seq 0 n)) w).
Proof.
  induction n as [|n IH]; intros i angle w Hc Hq.
  - cbn [for_ seq flat_map]. unfold dret. rewrite received_nil.
    do 2 f_equal. cbn [INR]. ring.
  - rewrite (for_S n i).
    (repeat step_draw Hq).
    match goal with
    | |- dbind (for_ 4 0 _ _) _ ?W = _ =>
        rewrite (dbind_Some _ _ _ _ _
                   (minute_markers_loop buffer_context qs angle (Math.PI / 30)
                      4 0 (Math.PI / 30) W ltac:(ctx_ok) ltac:(quads_ok Hq)))
    end.
    (rewrite received_app). (rewrite dbind_dret).
    (rewrite IH; [|ctx_ok | quads_ok Hq]).
    (rewrite received_app, !received_this_data).
    f_equal. f_equal.
    + rewrite S_INR. ring.
    + f_equal. (cbn [seq flat_map]). (rewrite flat_map_seq_shift).
      f_equal.
      * unfold hourBlockCalls.
        replace (angle + INR 0 * step) with angle by (cbn [INR]; ring).
        (rewrite <- !app_assoc). reflexivity.
      * apply flat_map_ext. intros k. f_equal. rewrite S_INR. ring.
Qed.

Lemma mod5_add (i j : nat) : (j < 5)%nat -> Nat.modulo (j + 5 * i) 5 = j.
Proof.
  intros Hj. rewrite (Nat.mul_comm 5 i), Nat.Div0.mod_add.
  apply Nat.mod_small. exact Hj.
Qed.

Lemma markerAngle_block (i j : nat) :
  markerAngle (j + 5 * i) = 0 + INR i * (Math.PI / 6) + INR j * (Math.PI / 30).
Proof.
  unfold markerAngle. rewrite plus_INR, mult_INR.
  change (INR 5) with (1 + 1 + 1 + 1 + 1). field.
Qed.

Lemma markerCalls_block (this : Clock) (qs : Quads) (i j : nat) :
  (j < 5)%nat ->
  markerCalls this qs (j + 5 * i) =
  match j with
  | O =>
      Canvas.fillStyle (Style.hour_marker (style_ this)) ::
      quadPath (q_hour_marker qs)
        (0 + INR i * (Math.PI / 6) + INR j * (Math.PI / 30)) ++
      Canvas.fill :: nil
  | S O =>
      Canvas.fillStyle (Style.minute_marker (style_ this)) ::
      quadPath (q_minute_marker qs)
        (0 + INR i * (Math.PI / 6) + INR j * (Math.PI / 30)) ++
      Canvas.fill :: nil
  | _ =>
      quadPath (q_minute_marker qs)
        (0 + INR i * (Math.PI / 6) + INR j * (Math.PI / 30)) ++
      Canvas.fill :: nil
  end.
Proof.
  intros Hj. unfold markerCalls.
  rewrite mod5_add by exact Hj. rewrite markerAngle_block. reflexivity.
Qed.

Lemma hourBlockCalls_markers (this : Clock) (qs : Quads) (i : nat) :
  hourBlockCalls this qs (0 + INR i * (Math.PI / 6)) =
  flat_map (markerCalls this qs) (seq (5 * i) 5).
Proof.
  assert (Hseq : seq (5 * i) 5 = map (fun j => (j + 5 * i)%nat) (seq 0 5))
    by reflexivity.
  rewrite Hseq. unfold hourBlockCalls. cbn [seq map flat_map].
  rewrite !markerCalls_block by lia.
  rewrite !app_nil_r. cbn [app INR]. rewrite <- !app_assoc. cbn [app].
  do 2 f_equal.
  { apply quadPath_ext. ring. }
  do 3 f_equal.
  { apply quadPath_ext. ring. }
  do 2 f_equal.
  { apply quadPath_ext. ring. }
  do 2 f_equal.
  { apply quadPath_ext. ring. }
  do 2 f_equal.
  apply quadPath_ext. ring.
Qed.

Lemma flat_map_blocks {A : Type} (f : nat -> list A) (n : nat) :
  flat_map (fun i => flat_map f (seq (5 * i) 5)) (seq 0 n) =
  flat_map f (seq 0 (5 * n)).
Proof.
  induction n as [|n IH].
  - reflexivity.
  - rewrite seq_S, flat_map_app, IH. cbn [flat_map Nat.add].
    rewrite app_nil_r.
    replace (5 * S n)%nat with (5 * n + 5)%nat by lia.
    rewrite seq_app, flat_map_app. reflexivity.
Qed.

Lemma hour_blocks_markers (this : Clock) (qs : Quads) :
  flat_map (fun i => hourBlockCalls this qs (0 + INR i * (Math.PI / 6)))
           (seq 0 12) =
  flat_map (markerCalls this qs) (seq 0 60).
Proof.
  rewrite (flat_map_ext _ _ (hourBlockCalls_markers this qs)).
  exact (flat_map_blocks (markerCalls this qs) 12).
Qed.

(** The widget with the buffer [prepareBackground] leaves. *)
Lemma set_buffer_eq (cw ch : R) (w : Widget) :
  set_buffer cw ch w =
  Some (tt, {| this_data := this_data w;
               context_ := context_ w;
               buffer := Some {| Canvas.cv_width := cw;
                                 Canvas.cv_height := ch;
                                 Canvas.calls := nil |};
               intervals := intervals w |}).
Proof. reflexivity. Qed.

Lemma prepareBackground_Some (qs : Quads) (w : Widget) :
  quads_ (this_data w) = Some qs ->
  prepareBackground w =
  Some (tt,
        {| this_data := this_data w;
           context_ := context_ w;
           buffer :=
             Some {| Canvas.cv_width := width (canvas_ (this_data w));
                     Canvas.cv_height := height (canvas_ (this_data w));
                     Canvas.calls :=
                       contextCalls (this_data w) ++
                       faceCalls (this_data w) ++
                       flat_map (markerCalls (this_data w) qs) (seq 0 60) |};
           intervals := intervals w |}).
Proof.
  intros Hq. unfold prepareBackground. cbv zeta.
  do 2 step_call.
  rewrite (dbind_Some _ _ _ _ _ (set_buffer_eq _ _ w)).
  set (w0 := {| this_data := this_data w;
                context_ := context_ w;
                buffer := Some {| Canvas.cv_width := width (canvas_ (this_data w));
                                  Canvas.cv_height := height (canvas_ (this_data w));
                                  Canvas.calls := nil |};
                intervals := intervals w |}).
  assert (Hc0 : hasContext buffer_context w0) by (cbn; discriminate).
  assert (Hq0 : quads_ (this_data w0) = Some qs) by exact Hq.
  rewrite (dbind_Some _ _ _ _ _ (prepareContext_received buffer_context w0 Hc0)).
  repeat step_draw Hq0.
  match goal with
  | |- dbind (for_ 12 0 _ _) _ ?W = _ =>
      rewrite (dbind_Some _ _ _ _ _
                 (hour_markers_loop qs (Math.PI / 6) 12 0 0 W
                    ltac:(ctx_ok) ltac:(quads_ok Hq0)))
  end.
  rewrite received_app, !received_this_data.
  rewrite hour_blocks_markers.
  unfold dret, received, w0. cbn.
  reflexivity.
Qed.

Lemma prepareBackground_None (w : Widget) :
  quads_ (this_data w) = None -> prepareBackground w = None.
Proof.
  intros Hq. unfold prepareBackground. cbv zeta.
  do 2 step_call.
  rewrite (dbind_Some _ _ _ _ _ (set_buffer_eq _ _ w)).
  set (w0 := {| this_data := this_data w;
                context_ := context_ w;
                buffer := Some {| Canvas.cv_width := width (canvas_ (this_data w));
                                  Canvas.cv_height := height (canvas_ (this_data w));
                                  Canvas.calls := nil |};
                intervals := intervals w |}).
  assert (Hc0 : hasContext buffer_context w0) by (cbn; discriminate).
  rewrite (dbind_Some _ _ _ _ _ (prepareContext_received buffer_context w0 Hc0)).
  repeat step_draw Hq.
  rewrite (for_S 11 0). 
  repeat step_draw Hq.
  apply dbind_None.
  apply this_quads_None. rewrite !received_this_data. exact Hq.
Qed.

Lemma lift_computeHoursAngle (now : Date) (w : Widget) :
  lift (computeHoursAngle now) w =
  Some (result (computeHoursAngle now) (this_data w), w).
Proof. apply lift_pure, computeHoursAngle_after. Qed.

Lemma lift_computeMinutesAngle (now : Date) (w : Widget) :
  lift (computeMinutesAngle now) w =
  Some (result (computeMinutesAngle now) (this_data w), w).
Proof. apply lift_pure, computeMinutesAngle_after. Qed.

Lemma lift_computeSecondsAngle (now : Date) (w : Widget) :
  lift (computeSecondsAngle now) w =
  Some (result (computeSecondsAngle now) (this_data w), w).
Proof. apply lift_pure, computeSecondsAngle_after. Qed.

Ltac step_hands Hq :=
  first
    [ step_draw Hq
    | match goal with
      | |- dbind (lift (computeHoursAngle ?n)) _ ?w = _ =>
          rewrite (dbind_Some _ _ _ _ _ (lift_computeHoursAngle n w))
      | |- dbind (lift (computeMinutesAngle ?n)) _ ?w = _ =>
          rewrite (dbind_Some _ _ _ _ _ (lift_computeMinutesAngle n w))
      | |- dbind (lift (computeSecondsAngle ?n)) _ ?w = _ =>
          rewrite (dbind_Some _ _ _ _ _ (lift_computeSecondsAngle n w))
      end ].

Lemma drawHands_Some (qs : Quads) (now : Date) (w : Widget) :
  quads_ (this_data w) = Some qs ->
  drawHands now w =
  Some (tt, received this_context_ (handsCalls (this_data w) qs now) w).
Proof.
  intros Hq. unfold drawHands. cbv zeta.
  repeat step_hands Hq.
  rewrite call_received by ctx_ok.
  rewrite received_app. cbn [received this_data].
  unfold handsCalls, tipCentre. cbv zeta.
  rewrite <- !app_assoc. cbn [app]. reflexivity.
Qed.

Lemma drawHands_None (now : Date) (w : Widget) :
  quads_ (this_data w) = None -> drawHands now w = None.
Proof.
  intros Hq. unfold drawHands. cbv zeta.
  repeat step_hands Hq.
  apply dbind_None. apply this_quads_None. cbn [received this_data]. exact Hq.
Qed.

Lemma dbind_this_buffer {B : Type} (k : Draw B) (w : Widget) :
  bufferDrawable w -> dbind this_buffer (fun _ => k) w = k w.
Proof.
  intros (b & Hb & Hw & Hh). unfold dbind, this_buffer. rewrite Hb.
  destruct (Req_dec_T (Canvas.cv_width b) 0) as [E | _]; [contradiction|].
  destruct (Req_dec_T (Canvas.cv_height b) 0) as [E | _]; [contradiction|].
  reflexivity.
Qed.

Lemma drawBackground_Some (w : Widget) :
  bufferDrawable w ->
  drawBackground w =
  Some (tt, received this_context_ (blitCalls (this_data w)) w).
Proof.
  intros Hb. unfold drawBackground. cbv zeta.
  repeat step_call.
  rewrite dbind_this_buffer by exact Hb.
  repeat step_call.
  rewrite call_received by ctx_ok.
  rewrite received_app. reflexivity.
Qed.

Lemma drawBackground_None (w : Widget) :
  buffer w = None -> drawBackground w = None.
Proof.
  intros Hb. unfold drawBackground. cbv zeta.
  repeat step_call.
  apply dbind_None. unfold this_buffer. cbn [received buffer]. rewrite Hb.
  reflexivity.
Qed.

Lemma drawBackground_empty (w : Widget) (b : Canvas.t) :
  buffer w = Some b ->
  Canvas.cv_width b = 0 \/ Canvas.cv_height b = 0 ->
  drawBackground w = None.
Proof.
  intros Hb Hz. unfold drawBackground. cbv zeta.
  repeat step_call.
  apply dbind_None. unfold this_buffer. cbn [received buffer]. rewrite Hb.
  destruct (Req_dec_T (Canvas.cv_width b) 0) as [_ | Hw]; [reflexivity|].
  destruct (Req_dec_T (Canvas.cv_height b) 0) as [_ | Hh]; [reflexivity|].
  destruct Hz; contradiction.
Qed.

Lemma drawBackground_cases (w : Widget) :
  drawBackground w = None \/
  drawBackground w =
  Some (tt, received this_context_ (blitCalls (this_data w)) w).
Proof.
  destruct (buffer w) as [b|] eqn:Hb.
  - destruct (Req_dec_T (Canvas.cv_width b) 0) as [Hw | Hw].
    { left. apply (drawBackground_empty w b Hb). left. exact Hw. }
    destruct (Req_dec_T (Canvas.cv_height b) 0) as [Hh | Hh].
    { left. apply (drawBackground_empty w b Hb). right. exact Hh. }
    right. apply drawBackground_Some. exists b. repeat split; assumption.
  - left. apply drawBackground_None. exact Hb.
Qed.

Lemma draw_Some (qs : Quads) (now : Date) (w : Widget) :
  quads_ (this_data w) = Some qs -> bufferDrawable w ->
  draw now w =
  Some (tt, received this_context_
              (blitCalls (this_data w) ++ handsCalls (this_data w) qs now) w).
Proof.
  intros Hq Hb. unfold draw.
  rewrite (dbind_Some _ _ _ _ _ (drawBackground_Some w Hb)).
  rewrite drawHands_Some with (qs := qs) by exact Hq.
  rewrite received_app. reflexivity.
Qed.

Lemma draw_None (now : Date) (w : Widget) :
  quads_ (this_data w) = None \/ buffer w = None -> draw now w = None.
Proof.
  intros Hn. unfold draw.
  destruct (drawBackground_cases w) as [Hbg | Hbg].
  - apply dbind_None. exact Hbg.
  - rewrite (dbind_Some _ _ _ _ _ Hbg).
    destruct Hn as [Hq | Hb].
    + apply drawHands_None. exact Hq.
    + rewrite (drawBackground_None w Hb) in Hbg. discriminate.
Qed.

Lemma lift_computeQuads (w : Widget) :
  lift computeQuads w =
  Some (tt, {| this_data := withQuads (this_data w);
               context_ := context_ w;
               buffer := buffer w;
               intervals := intervals w |}).
Proof. reflexivity. Qed.

Lemma run_Some (w : Widget) :
  run w =
  Some (tt, {| this_data := withQuads (this_data w);
               context_ := context_ w ++ contextCalls (this_data w);
               buffer := Some (backgroundBuffer (this_data w)
                                 (quadsOf (shape_ (this_data w))));
               intervals := intervals w ++ interval_ (this_data w) :: nil |}).
Proof.
  unfold run. cbv zeta.
  rewrite (dbind_Some _ _ _ _ _ (prepareContext_received this_context_ w I)).
  rewrite (dbind_Some _ _ _ _ _ (lift_computeQuads _)).
  match goal with
  | |- dbind prepareBackground _ ?W = _ =>
      rewrite (dbind_Some _ _ _ _ _
                 (prepareBackground_Some (quadsOf (shape_ (this_data w))) W
                    eq_refl))
  end.
  step_call. reflexivity.
Qed.

Lemma resetTransform_Some (qs : Quads) (w : Widget) :
  quads_ (this_data w) = Some qs ->
  resetTransform w =
  Some (tt, {| this_data := this_data w;
               context_ := context_ w ++
                           Canvas.setTransform 1 0 0 1 0 0 ::
                           contextCalls (this_data w);
               buffer := Some (backgroundBuffer (this_data w) qs);
               intervals := intervals w |}).
Proof.
  intros Hq. unfold resetTransform. cbv zeta.
  step_call.
  rewrite (dbind_Some _ _ _ _ _
             (prepareContext_received this_context_ _ I)).
  rewrite received_app.
  rewrite (prepareBackground_Some qs) by exact Hq.
  reflexivity.
Qed.

Lemma resetTransform_None (w : Widget) :
  quads_ (this_data w) = None -> resetTransform w = None.
Proof.
  intros Hq. unfold resetTransform. cbv zeta.
  step_call.
  rewrite (dbind_Some _ _ _ _ _
             (prepareContext_received this_context_ _ I)).
  apply prepareBackground_None. exact Hq.
Qed.

(** ** The transform of the context *)

Lemma transformState_app (l cs : list Canvas.Call) :
  transformState (l ++ cs) = fold_left transformStep cs (transformState l).
Proof. unfold transformState. apply fold_left_app. Qed.

Lemma transformState_blit (this : Clock) (l : list Canvas.Call) :
  transformState (l ++ blitCalls this) = transformState l.
Proof.
  rewrite transformState_app. destruct (transformState l) as [m st].
  reflexivity.
Qed.

Lemma transformState_hands (this : Clock) (qs : Quads) (now : Date)
    (l : list Canvas.Call) :
  transformState (l ++ handsCalls this qs now) = transformState l.
Proof.
  rewrite transformState_app. destruct (transformState l) as [m st].
  reflexivity.
Qed.

Lemma Matrix_ext (m1 m2 : Matrix) :
  m_a m1 = m_a m2 -> m_b m1 = m_b m2 -> m_c m1 = m_c m2 ->
  m_d m1 = m_d m2 -> m_e m1 = m_e m2 -> m_f m1 = m_f m2 -> m1 = m2.
Proof.
  destruct m1, m2. cbn. intros -> -> -> -> -> ->. reflexivity.
Qed.

Lemma currentTransform_reset (this : Clock) (l : list Canvas.Call) :
  currentTransform (l ++ Canvas.setTransform 1 0 0 1 0 0 :: contextCalls this) =
  preparedMatrix this.
Proof.
  unfold currentTransform. rewrite transformState_app.
  destruct (transformState l) as [m st]. cbn.
  apply Matrix_ext; cbn; ring.
Qed.

Lemma currentTransform_context (this : Clock) (l : list Canvas.Call) (p : Point) :
  transformPoint (currentTransform (l ++ contextCalls this)) p =
  transformPoint (currentTransform l)
    {| x := width (canvas_ this) / 2 + contextScale this * x p;
       y := height (canvas_ this) / 2 + contextScale this * y p |}.
Proof.
  unfold currentTransform. rewrite transformState_app.
  destruct (transformState l) as [m st]. cbn.
  unfold transformPoint. cbn. f_equal; ring.
Qed.

Lemma currentTransform_fresh (this : Clock) :
  currentTransform (contextCalls this) = preparedMatrix this.
Proof.
  exact (currentTransform_reset this nil).
Qed.

Lemma contextScale_eq (this : Clock) :
  1 - 2 * margin_ this <> 0 ->
  contextScale this =
  Math_min (width (canvas_ this)) (height (canvas_ this)) *
  (1 - 2 * margin_ this) / BASE_SIZE.
Proof.
  intros Hm. unfold contextScale, BASE_SIZE. field. exact Hm.
Qed.

(** ** What the drawing methods do *)

(** X11.  [drawQuad] makes exactly the six calls of one closed path on
    its context, through the four corners of the quad (top-left, its
    mirror image, bottom-right, its mirror image), each rotated by the
    angle, and changes nothing else. *)
Theorem drawQuad_path (ctx : Context2D) (quad : Quad) (angle : R) (w : Widget) :
  hasContext ctx w ->
  drawQuad ctx quad angle w = Some (tt, received ctx (quadPath quad angle) w) /\
  this_data (received ctx (quadPath quad angle) w) = this_data w /\
  intervals (received ctx (quadPath quad angle) w) = intervals w.
Proof.
  intros Hc. split; [apply drawQuad_received; exact Hc|].
  destruct ctx; split; reflexivity.
Qed.

Lemma drawQuad_path_witness :
  drawQuad this_context_ (q_second_hand (quadsOf (shape_ defaultClock))) 0
           readyWidget =
  Some (tt,
        received this_context_
          (quadPath (q_second_hand (quadsOf (shape_ defaultClock))) 0)
          readyWidget).
Proof.
  apply (drawQuad_path this_context_
           (q_second_hand (quadsOf (shape_ defaultClock))) 0 readyWidget).
  exact I.
Defined.

(** X12.  When [margin_] is not one half, [prepareContext] succeeds and
    changes nothing but the context, whose transform now first scales a
    point by [k = side (1 - 2 margin_) / BASE_SIZE] and moves it to the
    centre of the canvas, [side] being the shorter side of the canvas;
    the face of diameter [BASE_SIZE] is therefore drawn with radius
    [side / 2 - margin_ side]. *)
Theorem prepareContext_fits (w : Widget) :
  let this := this_data w in
  let cw := width (canvas_ this) in
  let ch := height (canvas_ this) in
  let side := Math_min cw ch in
  let k := side * (1 - 2 * margin_ this) / BASE_SIZE in
  1 - 2 * margin_ this <> 0 ->
  exists w' : Widget,
    prepareContext this_context_ w = Some (tt, w') /\
    this_data w' = this_data w /\
    buffer w' = buffer w /\
    (forall p : Point,
       transformPoint (currentTransform (context_ w')) p =
       transformPoint (currentTransform (context_ w))
         {| x := cw / 2 + k * x p; y := ch / 2 + k * y p |}) /\
    k * (BASE_SIZE / 2) = side / 2 - margin_ this * side.
Proof.
  intros this cw ch side k Hm.
  exists (received this_context_ (contextCalls this) w).
  split; [apply prepareContext_received; exact I|].
  split; [reflexivity|]. split; [reflexivity|]. split.
  - intros p. cbn [received context_].
    rewrite currentTransform_context. rewrite (contextScale_eq this Hm).
    reflexivity.
  - unfold k, BASE_SIZE. field.
Qed.

Lemma prepareContext_fits_witness :
  exists w' : Widget,
    prepareContext this_context_ (new_Widget None) = Some (tt, w') /\
    transformPoint (currentTransform (context_ w')) {| x := 0; y := - 50 |} =
    {| x := 150; y := 30 |}.
Proof.
  assert (Hm : 1 - 2 * margin_ (this_data (new_Widget None)) <> 0)
    by (cbn; lra).
  destruct (prepareContext_fits (new_Widget None) Hm)
    as (w' & Hrun & _ & _ & Hmap & _).
  exists w'. split; [exact Hrun|].
  rewrite Hmap. unfold transformPoint, Math_min, Rmin, BASE_SIZE. cbn.
  destruct (Rle_dec 300 300); f_equal; lra.
Defined.

(** X13.  When [quads_] is set, [prepareBackground] replaces the buffer
    by a canvas of the size of [canvas_] that has received the context
    set-up, the face, and then the sixty marks in order, the [n]-th at
    angle [n PI / 30], an hour marker when [n] is a multiple of five and
    a minute marker otherwise; nothing else changes.  When [quads_] is
    not set it throws. *)
Theorem prepareBackground_marks (w : Widget) :
  (forall qs : Quads,
     quads_ (this_data w) = Some qs ->
     prepareBackground w =
     Some (tt, {| this_data := this_data w;
                  context_ := context_ w;
                  buffer := Some (backgroundBuffer (this_data w) qs);
                  intervals := intervals w |})) /\
  (quads_ (this_data w) = None -> prepareBackground w = None).
Proof.
  split.
  - intros qs Hq. apply prepareBackground_Some. exact Hq.
  - apply prepareBackground_None.
Qed.

Lemma prepareBackground_marks_witness :
  prepareBackground readyWidget = Some (tt, readyWidget).
Proof.
  apply (prepareBackground_marks readyWidget). reflexivity.
Defined.



(** X16.  On a clock whose nested option objects are complete: once
    [quads_] is set, the buffer is a canvas of non-zero width and height,
    and the radius of the second hand's disc is not negative, any
    sequence of [draw] calls succeeds; it leaves the data fields, the
    buffer and the timers as they were, and the context ends with the
    transform and the stack of saved transforms it started with. *)
Theorem draws_keep_ready (dates : list Date) :
  forall w : Widget,
    ready w ->
    exists w' : Widget,
      draws dates w = Some (tt, w') /\
      ready w' /\
      this_data w' = this_data w /\
      buffer w' = buffer w /\
      intervals w' = intervals w /\
      transformState (context_ w') = transformState (context_ w).
Proof.
  induction dates as [|now rest IH]; intros w Hr.
  - exists w. cbn. repeat split; try reflexivity; apply Hr.
  - destruct Hr as (Hq & Hb & Hrad).
    destruct (quads_ (this_data w)) as [qs|] eqn:Eq; [|contradiction Hq; reflexivity].
    pose proof (draw_Some qs now w Eq Hb) as Hd.
    set (w1 := received this_context_
                 (blitCalls (this_data w) ++ handsCalls (this_data w) qs now) w)
      in Hd.
    assert (Hr1 : ready w1).
    { split; [cbn; rewrite Eq; discriminate|]. split; [exact Hb | exact Hrad]. }
    destruct (IH w1 Hr1) as (w' & Hrun & Hr' & Hdata & Hbuf & Hint & Htr).
    exists w'. cbn [draws]. rewrite (dbind_Some _ _ _ _ _ Hd).
    split; [exact Hrun|]. split; [exact Hr'|].
    split; [exact Hdata|]. split; [exact Hbuf|]. split; [exact Hint|].
    rewrite Htr. cbn [w1 received context_].
    rewrite app_assoc, transformState_hands, transformState_blit. reflexivity.
Qed.

Lemma draws_keep_ready_witness :
  exists w' : Widget,
    draws (morning :: nextMorning :: nil) readyWidget = Some (tt, w') /\
    ready w'.
Proof.
  assert (Hr : ready readyWidget).
  { split; [cbn; discriminate|]. split.
    - eexists. split; [reflexivity|]. cbn. split; lra.
    - cbn. lra. }
  destruct (draws_keep_ready (morning :: nextMorning :: nil) readyWidget Hr)
    as (w' & Hrun & Hr' & _).
  exists w'. split; assumption.
Defined.

(** A clock of size zero has an empty buffer: [run] succeeds on it, and
    each [draw] then throws. *)
Lemma draw_empty_buffer (now : Date) (w : Widget) (b : Canvas.t) :
  buffer w = Some b ->
  Canvas.cv_width b = 0 \/ Canvas.cv_height b = 0 ->
  draw now w = None.
Proof.
  intros Hb Hz. unfold draw. apply dbind_None.
  apply (drawBackground_empty w b Hb Hz).
Qed.

(** X15.  On a newly constructed clock whose options are in the model
    (nested objects complete, a size the canvas keeps as it is, a
    non-zero frame rate), [run] succeeds: afterwards [quads_] holds the
    quads of the shape, the context has received the set-up calls only
    and its transform is the prepared one, the buffer holds the
    background, and one timer has been installed with period
    [1000 / fps].  The clock is then ready to draw when its size is not
    zero and the radius of the second hand's disc is not negative. *)
Theorem run_new_Widget (opt : option PartialOptions) :
  let this := new_Clock opt in
  canvasSize (size (assign DEFAULT_OPTIONS_ opt)) ->
  fps (assign DEFAULT_OPTIONS_ opt) <> 0 ->
  exists w' : Widget,
    run (new_Widget opt) = Some (tt, w') /\
    this_data w' = withQuads this /\
    context_ w' = contextCalls this /\
    currentTransform (context_ w') = preparedMatrix this /\
    buffer w' = Some (backgroundBuffer this (quadsOf (shape_ this))) /\
    intervals w' = 1000.0 / fps (assign DEFAULT_OPTIONS_ opt) :: nil /\
    interval_ (this_data w') * fps (assign DEFAULT_OPTIONS_ opt) = 1000 /\
    (size (assign DEFAULT_OPTIONS_ opt) <> 0 ->
     0 <= Shape.top_radius (Shape.second_hand (shape_ this)) ->
     ready w').
Proof.
  intros this _ Hfps. eexists. split; [apply run_Some|].
  split; [reflexivity|]. split; [reflexivity|].
  split; [cbn [context_ new_Widget app]; apply currentTransform_fresh|].
  split; [reflexivity|]. split; [reflexivity|].
  split.
  - cbn [this_data withQuads interval_ new_Widget new_Clock].
    unfold Rdiv. rewrite Rmult_assoc, Rinv_l by exact Hfps. lra.
  - intros Hsize Hrad.
    split; [cbn; discriminate|]. split; [|exact Hrad].
    eexists. split; [reflexivity|]. cbn. split; exact Hsize.
Qed.

Lemma run_new_Widget_witness :
  exists w' : Widget, run (new_Widget None) = Some (tt, w') /\ ready w'.
Proof.
  assert (Hs : canvasSize (size (assign DEFAULT_OPTIONS_ None))).
  { exists 300%Z. split; [lia | reflexivity]. }
  assert (Hf : fps (assign DEFAULT_OPTIONS_ None) <> 0) by (cbn; lra).
  destruct (run_new_Widget None Hs Hf) as (w' & Hrun & _ & _ & _ & _ & _ & _ & Hr).
  exists w'. split; [exact Hrun|].
  apply Hr; cbn; lra.
Defined.

(** X17.  [draw] throws while [quads_] or the buffer is not set;
    [drawHands], [prepareBackground] and [resetTransform] throw while
    [quads_] is not set; [drawBackground] throws while there is no
    buffer.  In particular [draw] and [resetTransform] throw on a clock
    on which [run] has not been called. *)
Theorem not_ready_throws (w : Widget) (now : Date) :
  (quads_ (this_data w) = None \/ buffer w = None -> draw now w = None) /\
  (quads_ (this_data w) = None ->
   drawHands now w = None /\ prepareBackground w = None /\
   resetTransform w = None) /\
  (buffer w = None -> drawBackground w = None).
Proof.
  split; [apply draw_None|]. split.
  - intros Hq. split; [apply drawHands_None; exact Hq|].
    split; [apply prepareBackground_None | apply resetTransform_None]; exact Hq.
  - apply drawBackground_None.
Qed.

Lemma not_ready_throws_witness :
  draw morning (new_Widget None) = None /\
  resetTransform (new_Widget None) = None.
Proof.
  destruct (not_ready_throws (new_Widget None) morning) as (Hd & Hq & _).
  split.
  - apply Hd. left. reflexivity.
  - apply Hq. reflexivity.
Defined.

(** X18.  When [quads_] is set, [resetTransform] succeeds whatever the
    context has received before: the transform of the context is the
    prepared one again, the buffer is rebuilt, and the data fields and
    the timers are unchanged. *)
Theorem resetTransform_restores (w : Widget) (qs : Quads) :
  quads_ (this_data w) = Some qs ->
  exists w' : Widget,
    resetTransform w = Some (tt, w') /\
    currentTransform (context_ w') = preparedMatrix (this_data w) /\
    buffer w' = Some (backgroundBuffer (this_data w) qs) /\
    this_data w' = this_data w /\
    intervals w' = intervals w.
Proof.
  intros Hq. eexists. split; [apply (resetTransform_Some qs); exact Hq|].
  split; [|repeat split].
  cbn [context_]. apply currentTransform_reset.
Qed.

Lemma resetTransform_restores_witness :
  exists w' : Widget,
    resetTransform readyWidget = Some (tt, w') /\
    currentTransform (context_ w') = preparedMatrix defaultClock.
Proof.
  destruct (resetTransform_restores readyWidget (quadsOf (shape_ defaultClock))
              eq_refl) as (w' & Hrun & Htr & _).
  exists w'. split; [exact Hrun | exact Htr].
Defined.

(** [computeQuads] assigns [quads_] only, from [shape_] only, and running
    it again changes nothing. *)
Lemma computeQuads_effect (this : Clock) :
  after computeQuads this = withQuads this /\
  after computeQuads (after computeQuads this) = after computeQuads this /\
  (forall this2 : Clock,
     shape_ this2 = shape_ this ->
     quads_ (after computeQuads this2) = quads_ (after computeQuads this)).
Proof.
  split; [reflexivity|]. split; [reflexivity|].
  intros this2 Hs. cbn. rewrite Hs. reflexivity.
Qed.

(** X10.  The quads [computeQuads] builds: a marker is a rectangle as
    wide and as high as the shape says whose far edge is at
    [marker_radius] from the centre; the hour and minute hands reach
    [top.height] beyond the centre and [base.height] behind it, with the
    widths of the shape at the two ends; the second hand is a rectangle
    from [top_height] beyond the centre to [base_height] behind it. *)
Theorem computeQuads_geometry (this : Clock) (qs : Quads) :
  let s := shape_ this in
  quads_ (after computeQuads this) = Some qs ->
  (y (topLeft (q_hour_marker qs)) = - Shape.marker_radius s /\
   y (bottomRight (q_hour_marker qs)) - y (topLeft (q_hour_marker qs)) =
     height (Shape.hour_marker s) /\
   x (bottomRight (q_hour_marker qs)) = - x (topLeft (q_hour_marker qs)) /\
   2 * x (bottomRight (q_hour_marker qs)) = width (Shape.hour_marker s)) /\
  (y (topLeft (q_minute_marker qs)) = - Shape.marker_radius s /\
   y (bottomRight (q_minute_marker qs)) - y (topLeft (q_minute_marker qs)) =
     height (Shape.minute_marker s) /\
   x (bottomRight (q_minute_marker qs)) = - x (topLeft (q_minute_marker qs)) /\
   2 * x (bottomRight (q_minute_marker qs)) = width (Shape.minute_marker s)) /\
  (y (topLeft (q_hour_hand qs)) = - height (Shape.top (Shape.hour_hand s)) /\
   y (bottomRight (q_hour_hand qs)) = height (Shape.base (Shape.hour_hand s)) /\
   - (2 * x (topLeft (q_hour_hand qs))) = width (Shape.top (Shape.hour_hand s)) /\
   2 * x (bottomRight (q_hour_hand qs)) = width (Shape.base (Shape.hour_hand s))) /\
  (y (topLeft (q_minute_hand qs)) = - height (Shape.top (Shape.minute_hand s)) /\
   y (bottomRight (q_minute_hand qs)) =
     height (Shape.base (Shape.minute_hand s)) /\
   - (2 * x (topLeft (q_minute_hand qs))) =
     width (Shape.top (Shape.minute_hand s)) /\
   2 * x (bottomRight (q_minute_hand qs)) =
     width (Shape.base (Shape.minute_hand s))) /\
  (y (topLeft (q_second_hand qs)) = - Shape.top_height (Shape.second_hand s) /\
   y (bottomRight (q_second_hand qs)) =
     Shape.base_height (Shape.second_hand s) /\
   x (bottomRight (q_second_hand qs)) = - x (topLeft (q_second_hand qs)) /\
   2 * x (bottomRight (q_second_hand qs)) =
     Shape.sh_width (Shape.second_hand s)).
Proof.
  intros s Hq. cbn in Hq. injection Hq as <-. cbn. fold s.
  repeat split; field.
Qed.

Lemma computeQuads_geometry_witness :
  y (topLeft (q_hour_marker (quadsOf (shape_ defaultClock)))) = - 48.5 /\
  y (bottomRight (q_hour_marker (quadsOf (shape_ defaultClock)))) -
  y (topLeft (q_hour_marker (quadsOf (shape_ defaultClock)))) = 12.0.
Proof.
  destruct (computeQuads_geometry defaultClock (quadsOf (shape_ defaultClock))
              eq_refl) as ((H1 & H2 & _) & _).
  split; [rewrite H1 | rewrite H2]; cbn; lra.
Defined.

(** ** The angle methods as the clock samples them

    The statements below are about the three methods at the dates the
    clock reads, together with the functions of a real time they sample. *)

Lemma sweepAngle_pos (b : Behavior.SecondHand) (t : R) :
  valid_second_hand b -> 0 < t -> 0 < sweepAngle b t.
Proof.
  intros Hv Ht.
  replace 0 with (sweepAngle b 0).
  - apply sweepAngle_lt; [exact Hv | lra | exact Ht].
  - unfold sweepAngle. cbv zeta. ring.
Qed.

(** C4.  For every clock whose second-hand parameters are valid, with
    [cycle = 60 - pause_seconds], [v = 2 PI / cycle] and
    [lambda = ln decay / decay_seconds]: at every date
    [computeSecondsAngle] returns the seconds angle at the date's seconds
    within the minute; at a date with [t = cycle] it returns exactly 0,
    the value of the pause formula there; at a date with [0 < t < cycle]
    it returns the sweep formula, a positive angle; the sweep formula's
    value at [t = cycle], [v cycle (1 - exp (lambda cycle))], is nonzero
    and is the limit of the seconds angle from below; so the seconds
    angle is not continuous at [t = cycle]: it jumps. *)
Theorem computeSecondsAngle_jump_at_cycle (this : Clock) :
  let b := Behavior.second_hand (behavior_ this) in
  let cycle := 60 - Behavior.pause_seconds b in
  let v := 2 * Math.PI / cycle in
  let lambda := Math.log (Behavior.s_decay b) / Behavior.s_decay_seconds b in
  valid_second_hand b ->
  (forall now : Date,
     result (computeSecondsAngle now) this = secondsAngle b (subMinute now)) /\
  (forall now : Date,
     subMinute now = cycle -> result (computeSecondsAngle now) this = 0) /\
  (forall now : Date,
     0 < subMinute now < cycle ->
     result (computeSecondsAngle now) this =
       v * subMinute now * (1 - Math.exp (lambda * subMinute now)) /\
     0 < result (computeSecondsAngle now) this) /\
  (let x := cycle - cycle in v * x * Math.exp (lambda * x) = 0) /\
  v * cycle * (1 - Math.exp (lambda * cycle)) <> 0 /\
  limit1_in (secondsAngle b) (fun t => t < cycle)
    (v * cycle * (1 - Math.exp (lambda * cycle))) cycle /\
  ~ continuity_pt (secondsAngle b) cycle.
Proof.
  intros b cycle v lambda Hv.
  destruct (secondsAngle_jump_at_cycle b Hv) as (H0 & Hc & Hne & Hlim & Hnc).
  split; [intros now; apply computeSecondsAngle_result|].
  split.
  { intros now Ht. rewrite computeSecondsAngle_result. fold b. rewrite Ht.
    exact Hc. }
  split.
  { intros now [Ht0 Ht1]. rewrite computeSecondsAngle_result. fold b.
    split.
    - apply secondsAngle_sweep. exact Ht1.
    - rewrite secondsAngle_sweepAngle by exact Ht1.
      apply sweepAngle_pos; assumption. }
  split; [exact H0|]. split; [exact Hne|]. split; [exact Hlim | exact Hnc].
Qed.

Lemma computeSecondsAngle_jump_at_cycle_witness :
  result (computeSecondsAngle endOfCycle) defaultClock = 0 /\
  0 < result (computeSecondsAngle tenthOfSecond) defaultClock.
Proof.
  assert (Hv : valid_second_hand (Behavior.second_hand (behavior_ defaultClock))).
  { unfold valid_second_hand. cbn. lra. }
  destruct (computeSecondsAngle_jump_at_cycle defaultClock Hv)
    as (_ & Hz & Hpos & _).
  split.
  - apply Hz. unfold subMinute. cbn. lra.
  - apply Hpos. unfold subMinute. cbn. lra.
Defined.

(** C6.  For every clock whose behavior parameters are valid and fixed
    minute of the hour and hour of the day: the three methods return, at
    every date, the values of the seconds, minutes and hours angles at
    the date's seconds within the minute; the minutes angle and the
    hours angle are continuous functions of [t] (at every real [t], so
    over [0,60)); the seconds angle is continuous at every [t] other than
    [cycle = 60 - pause_seconds] and is not continuous at [t = cycle]:
    the second-hand jump is the only discontinuity of the three. *)
Theorem computeAngles_continuity (this : Clock) (minutes hours : R) :
  let b := behavior_ this in
  let cycle := 60 - Behavior.pause_seconds (Behavior.second_hand b) in
  valid_second_hand (Behavior.second_hand b) ->
  valid_minute_hand (Behavior.minute_hand b) ->
  valid_hour_hand (Behavior.hour_hand b) ->
  (forall now : Date,
     result (computeSecondsAngle now) this =
       secondsAngle (Behavior.second_hand b) (subMinute now) /\
     result (computeMinutesAngle now) this =
       minutesAngle (Behavior.minute_hand b) (IZR (getMinutes now))
         (subMinute now) /\
     result (computeHoursAngle now) this =
       hoursAngle (Behavior.hour_hand b) (IZR (getMinutes now))
         (IZR (getHours now)) (subMinute now)) /\
  (forall t : R, continuity_pt (minutesAngle (Behavior.minute_hand b) minutes) t) /\
  (forall t : R,
     continuity_pt (hoursAngle (Behavior.hour_hand b) minutes hours) t) /\
  (forall t : R,
     t <> cycle -> continuity_pt (secondsAngle (Behavior.second_hand b)) t) /\
  ~ continuity_pt (secondsAngle (Behavior.second_hand b)) cycle.
Proof.
  intros b cycle Hs Hm Hh.
  split.
  - intros now.
    split; [apply computeSecondsAngle_result|].
    split; [apply computeMinutesAngle_result | apply computeHoursAngle_result].
  - exact (angles_continuity b minutes hours Hs Hm Hh).
Qed.

Lemma computeAngles_continuity_witness :
  (forall now : Date,
     result (computeMinutesAngle now) defaultClock =
       minutesAngle (Behavior.minute_hand (behavior_ defaultClock))
         (IZR (getMinutes now)) (subMinute now)) /\
  (forall t : R,
     continuity_pt
       (minutesAngle (Behavior.minute_hand (behavior_ defaultClock)) 42) t) /\
  (forall t : R,
     continuity_pt
       (hoursAngle (Behavior.hour_hand (behavior_ defaultClock)) 42 7) t) /\
  (forall t : R,
     t <> 60 - 1.5 ->
     continuity_pt
       (secondsAngle (Behavior.second_hand (behavior_ defaultClock))) t) /\
  ~ continuity_pt
      (secondsAngle (Behavior.second_hand (behavior_ defaultClock))) (60 - 1.5).
Proof.
  assert (Hs : valid_second_hand (Behavior.second_hand (behavior_ defaultClock))).
  { unfold valid_second_hand. cbn. lra. }
  assert (Hm : valid_minute_hand (Behavior.minute_hand (behavior_ defaultClock))).
  { unfold valid_minute_hand. cbn. lra. }
  assert (Hh : valid_hour_hand (Behavior.hour_hand (behavior_ defaultClock))).
  { unfold valid_hour_hand. cbn. lra. }
  destruct (computeAngles_continuity defaultClock 42 7 Hs Hm Hh)
    as (Hlink & Hrest).
  split; [intros now; apply (Hlink now) | exact Hrest].
Defined.

(** ** Settling within the minute *)

Lemma exp_tenth_power (a : R) :
  exp a * exp a * exp a * exp a * exp a *
  (exp a * exp a * exp a * exp a * exp a) = exp (10 * a).
Proof. rewrite <- !exp_plus. f_equal. ring. Qed.

Lemma half_tenth_root : 0.9 < exp (Math.log 0.5 / 600 * 60).
Proof.
  unfold Math.log.
  set (E := exp (ln 0.5 / 600 * 60)).
  assert (HE : 0 < E) by apply exp_pos.
  assert (H10 : E * E * E * E * E * (E * E * E * E * E) = 0.5).
  { unfold E. rewrite exp_tenth_power.
    replace (10 * (ln 0.5 / 600 * 60)) with (ln 0.5) by lra.
    apply exp_ln. lra. }
  destruct (Rlt_le_dec 0.9 E) as [H | H]; [exact H | exfalso].
  pose proof (fifth_power_le E 0.9 (conj (Rlt_le _ _ HE) H)) as H5.
  assert (H5pos : 0 <= E * E * E * E * E).
  { repeat apply Rmult_le_pos; lra. }
  assert (Hsq : E * E * E * E * E * (E * E * E * E * E) <=
                0.9 * 0.9 * 0.9 * 0.9 * 0.9 * (0.9 * 0.9 * 0.9 * 0.9 * 0.9)).
  { apply Rmult_le_compat; assumption. }
  rewrite H10 in Hsq. lra.
Qed.

Lemma slow_hour_hand_deviation (minutes hours t : R) :
  0 <= t <= 60 ->
  0.9 * (Math.PI / 360) <=
  Rabs (hoursAngle (Behavior.hour_hand (behavior_ slowClock)) minutes hours t -
        Math.PI / 360 * (minutes + 60 * hours)).
Proof.
  intros [Ht0 Ht1].
  assert (Hv : valid_hour_hand (Behavior.hour_hand (behavior_ slowClock))).
  { unfold valid_hour_hand. cbn. lra. }
  rewrite (hoursAngle_deviation _ minutes hours t Hv Ht0).
  change (rate (Behavior.h_decay (Behavior.hour_hand (behavior_ slowClock)))
            (Behavior.h_decay_seconds (Behavior.hour_hand (behavior_ slowClock))))
    with (Math.log 0.5 / 600).
  set (l := Math.log 0.5 / 600).
  assert (Hl : l < 0).
  { pose proof (rate_neg 0.5 600 ltac:(lra) ltac:(lra)) as H. exact H. }
  pose proof (delta_pos 360 ltac:(lra)) as Hd.
  pose proof half_tenth_root as H60. fold l in H60.
  assert (He : exp (l * 60) <= exp (l * t)).
  { destruct (Req_dec t 60) as [-> | Hne]; [right; reflexivity|].
    left. apply exp_increasing.
    assert (l * (60 - t) < 0) by (apply mult_neg_pos; lra). lra. }
  assert (H1 : 1 <= 1 - l * t).
  { pose proof (mult_neg_nonneg l t Hl Ht0). lra. }
  unfold Math.exp.
  rewrite Rmult_assoc, (Rmult_comm 0.9).
  apply Rmult_le_compat_l; [lra|].
  apply Rle_trans with (1 * exp (l * t)); [lra|].
  apply Rmult_le_compat_r; [left; apply exp_pos | exact H1].
Qed.

(** C8, as stated, fails: with the valid hour-hand parameters [decay]
    0.5 and [decay_seconds] 600 the hours angle does not converge to its
    target as [t] grows toward 60: at every date [computeHoursAngle]
    returns an angle at least [0.9 PI / 360] away from
    [(PI/360) (minuteOfHour + 60 hourOfDay)], and the deviation of the
    hours angle has no limit 0 at [t = 60]. *)
Lemma slow_hour_hand_does_not_settle :
  valid_minute_hand (Behavior.minute_hand (behavior_ slowClock)) /\
  valid_hour_hand (Behavior.hour_hand (behavior_ slowClock)) /\
  (forall now : Date,
     0.9 * (Math.PI / 360) <=
     Rabs (result (computeHoursAngle now) slowClock -
           Math.PI / 360 * (IZR (getMinutes now) + 60 * IZR (getHours now)))) /\
  ~ (forall eps : R, 0 < eps ->
       exists d : R, 0 < d /\
         forall t : R, 60 - d < t < 60 ->
           Rabs (hoursAngle (Behavior.hour_hand (behavior_ slowClock)) 0 0 t -
                 Math.PI / 360 * (0 + 60 * 0)) < eps).
Proof.
  split; [unfold valid_minute_hand; cbn; lra|].
  split; [unfold valid_hour_hand; cbn; lra|].
  split.
  - intros now. rewrite computeHoursAngle_result.
    apply slow_hour_hand_deviation.
    pose proof (subMinute_range now). lra.
  - intros Hconv.
    pose proof (delta_pos 360 ltac:(lra)) as Hd.
    destruct (Hconv (0.9 * (Math.PI / 360)) ltac:(lra)) as (d & Hdpos & Hclose).
    set (t := 60 - Rmin d 60 / 2).
    pose proof (Rmin_l d 60). pose proof (Rmin_r d 60).
    assert (Hmin : 0 < Rmin d 60) by (apply Rmin_pos; lra).
    assert (Ht : 60 - d < t < 60) by (unfold t; lra).
    pose proof (Hclose t Ht) as Hlt.
    pose proof (slow_hour_hand_deviation 0 0 t ltac:(unfold t; lra)) as Hge.
    lra.
Qed.

(** C8, amended.  For every clock whose minute-hand and hour-hand
    parameters are valid, at every date (and at every real [t] in
    [0,60)) the minutes angle [computeMinutesAngle] returns is within
    [(PI/30) (1 + |lambda/omega|) exp (lambda t)] of
    [angle0 = (PI/30) minuteOfHour], and the hours angle
    [computeHoursAngle] returns is within
    [(PI/360) (1 + 60 |lambda|) exp (lambda t)] of
    [angle0 = (PI/360) (minuteOfHour + 60 hourOfDay)], each with the
    [lambda] of its hand; [exp (lambda t)] tends to 0 as [t] grows
    without bound. *)
Theorem computeAngles_settle_bounds (this : Clock) :
  let bm := Behavior.minute_hand (behavior_ this) in
  let bh := Behavior.hour_hand (behavior_ this) in
  let lm := Math.log (Behavior.m_decay bm) / Behavior.m_decay_seconds bm in
  let omega := 2 * Math.PI * Behavior.frequency bm in
  let lh := Math.log (Behavior.h_decay bh) / Behavior.h_decay_seconds bh in
  valid_minute_hand bm -> valid_hour_hand bh ->
  (forall now : Date,
     let t := subMinute now in
     let m := IZR (getMinutes now) in
     let h := IZR (getHours now) in
     0 <= t < 60 /\
     Rabs (result (computeMinutesAngle now) this - Math.PI / 30 * m) <=
       Math.PI / 30 * (1 + Rabs (lm / omega)) * Math.exp (lm * t) /\
     Rabs (result (computeHoursAngle now) this -
           Math.PI / 360 * (m + 60 * h)) <=
       Math.PI / 360 * (1 + 60 * Rabs lh) * Math.exp (lh * t)) /\
  (forall minutes hours t : R, 0 <= t < 60 ->
     Rabs (minutesAngle bm minutes t - Math.PI / 30 * minutes) <=
       Math.PI / 30 * (1 + Rabs (lm / omega)) * Math.exp (lm * t) /\
     Rabs (hoursAngle bh minutes hours t -
           Math.PI / 360 * (minutes + 60 * hours)) <=
       Math.PI / 360 * (1 + 60 * Rabs lh) * Math.exp (lh * t)) /\
  (forall eps : R, 0 < eps ->
     exists T : R, forall t : R, T < t ->
       Math.exp (lm * t) < eps /\ Math.exp (lh * t) < eps).
Proof.
  intros bm bh lm omega lh Hm Hh.
  assert (Hreal : forall minutes hours t : R, 0 <= t < 60 ->
     Rabs (minutesAngle bm minutes t - Math.PI / 30 * minutes) <=
       Math.PI / 30 * (1 + Rabs (lm / omega)) * Math.exp (lm * t) /\
     Rabs (hoursAngle bh minutes hours t -
           Math.PI / 360 * (minutes + 60 * hours)) <=
       Math.PI / 360 * (1 + 60 * Rabs lh) * Math.exp (lh * t)).
  { intros minutes hours.
    destruct (angles_settle bm bh minutes hours Hm Hh) as (Hb & _ & _).
    exact Hb. }
  split; [|split].
  - intros now t m h.
    pose proof (subMinute_range now) as Ht. fold t in Ht.
    split; [exact Ht|].
    rewrite computeMinutesAngle_result, computeHoursAngle_result.
    fold bm bh t m h. apply Hreal. exact Ht.
  - exact Hreal.
  - destruct (angles_settle bm bh 0 0 Hm Hh) as (_ & Hlim & _). exact Hlim.
Qed.

Lemma computeAngles_settle_bounds_witness :
  Rabs (result (computeMinutesAngle second59) defaultClock -
        Math.PI / 30 * IZR (getMinutes second59)) <=
    Math.PI / 30 * (1 + Rabs (Math.log 0.1 / 0.3 / (2 * Math.PI * 6))) *
    Math.exp (Math.log 0.1 / 0.3 * subMinute second59) /\
  Rabs (result (computeHoursAngle second59) defaultClock -
        Math.PI / 360 *
        (IZR (getMinutes second59) + 60 * IZR (getHours second59))) <=
    Math.PI / 360 * (1 + 60 * Rabs (Math.log 0.1 / 1)) *
    Math.exp (Math.log 0.1 / 1 * subMinute second59).
Proof.
  assert (Hm : valid_minute_hand (Behavior.minute_hand (behavior_ defaultClock))).
  { unfold valid_minute_hand. cbn. lra. }
  assert (Hh : valid_hour_hand (Behavior.hour_hand (behavior_ defaultClock))).
  { unfold valid_hour_hand. cbn. lra. }
  destruct (computeAngles_settle_bounds defaultClock Hm Hh) as (Hdates & _ & _).
  destruct (Hdates second59) as (_ & H1 & H2).
  split; [exact H1 | exact H2].
Defined.

(** ** The sweep and the pause, on the method *)

(** X4.  With valid parameters, during the sweep the angle
    [computeSecondsAngle] returns is strictly increasing in the seconds
    within the minute and stays below a full turn; so is the seconds
    angle at every real [t] with [0 <= t < cycle]. *)
Theorem computeSecondsAngle_sweep_increasing (this : Clock) :
  let b := Behavior.second_hand (behavior_ this) in
  let cycle := 60 - Behavior.pause_seconds b in
  valid_second_hand b ->
  (forall now1 now2 : Date,
     subMinute now1 < subMinute now2 -> subMinute now2 < cycle ->
     result (computeSecondsAngle now1) this <
     result (computeSecondsAngle now2) this) /\
  (forall now : Date,
     subMinute now < cycle ->
     result (computeSecondsAngle now) this < 2 * Math.PI) /\
  (forall t1 t2 : R,
     0 <= t1 -> t1 < t2 -> t2 < cycle ->
     secondsAngle b t1 < secondsAngle b t2) /\
  (forall t : R, 0 <= t -> t < cycle -> secondsAngle b t < 2 * Math.PI).
Proof.
  intros b cycle Hv.
  destruct (secondsAngle_sweep_increasing b Hv) as [Hinc Hlt].
  split; [|split; [|split; assumption]].
  - intros now1 now2 H12 H2. rewrite !computeSecondsAngle_result.
    apply Hinc; [apply subMinute_range | exact H12 | exact H2].
  - intros now Ht. rewrite computeSecondsAngle_result.
    apply Hlt; [apply subMinute_range | exact Ht].
Qed.

Lemma computeSecondsAngle_sweep_increasing_witness :
  result (computeSecondsAngle midnight) defaultClock <
  result (computeSecondsAngle tenthOfSecond) defaultClock /\
  result (computeSecondsAngle tenthOfSecond) defaultClock < 2 * Math.PI.
Proof.
  assert (Hv : valid_second_hand (Behavior.second_hand (behavior_ defaultClock))).
  { unfold valid_second_hand. cbn. lra. }
  destruct (computeSecondsAngle_sweep_increasing defaultClock Hv)
    as (Hinc & Hlt & _).
  split.
  - apply Hinc; unfold subMinute; cbn; lra.
  - apply Hlt. unfold subMinute. cbn. lra.
Defined.

(** X5.  With valid parameters, at every date (and at every real
    [t >= 0]): during the sweep the angle [computeSecondsAngle] returns
    never runs ahead of the uniform sweep [v t] and lags it by at most
    [v / (|lambda| e)]; during the pause it stays within
    [v / (|lambda| e)] of the mark. *)
Theorem computeSecondsAngle_lag (this : Clock) :
  let b := Behavior.second_hand (behavior_ this) in
  let cycle := 60 - Behavior.pause_seconds b in
  let v := 2 * Math.PI / cycle in
  let lambda := Math.log (Behavior.s_decay b) / Behavior.s_decay_seconds b in
  let bound := v / (- lambda * Math.exp 1) in
  valid_second_hand b ->
  (forall now : Date,
     let t := subMinute now in
     (t < cycle ->
      v * t - bound <= result (computeSecondsAngle now) this <= v * t) /\
     (t >= cycle -> 0 <= result (computeSecondsAngle now) this <= bound)) /\
  (forall t : R, 0 <= t ->
     (t < cycle -> v * t - bound <= secondsAngle b t <= v * t) /\
     (t >= cycle -> 0 <= secondsAngle b t <= bound)).
Proof.
  intros b cycle v lambda bound Hv.
  split.
  - intros now t. rewrite computeSecondsAngle_result. fold b t.
    apply (secondsAngle_lag b t Hv). apply subMinute_range.
  - intros t Ht. exact (secondsAngle_lag b t Hv Ht).
Qed.

Lemma computeSecondsAngle_lag_witness :
  0 <= result (computeSecondsAngle second59) defaultClock <=
  2 * Math.PI / (60 - 1.5) / (- (Math.log 0.1 / 0.5) * Math.exp 1).
Proof.
  assert (Hv : valid_second_hand (Behavior.second_hand (behavior_ defaultClock))).
  { unfold valid_second_hand. cbn. lra. }
  destruct (computeSecondsAngle_lag defaultClock Hv) as [Hdates _].
  destruct (Hdates second59) as [_ Hpause].
  apply Hpause. unfold subMinute. cbn. lra.
Defined.

(** X6.  With valid parameters the hour hand never passes its target:
    at every date [computeHoursAngle] returns at most
    [(PI/360) (minuteOfHour + 60 hourOfDay)], and within one minute it
    does not decrease as the seconds advance. *)
Theorem computeHoursAngle_from_behind (this : Clock) :
  let b := Behavior.hour_hand (behavior_ this) in
  valid_hour_hand b ->
  (forall now : Date,
     result (computeHoursAngle now) this <=
     Math.PI / 360 * (IZR (getMinutes now) + 60 * IZR (getHours now))) /\
  (forall now1 now2 : Date,
     getHours now1 = getHours now2 -> getMinutes now1 = getMinutes now2 ->
     subMinute now1 <= subMinute now2 ->
     result (computeHoursAngle now1) this <=
     result (computeHoursAngle now2) this).
Proof.
  intros b Hv. split.
  - intros now. rewrite computeHoursAngle_result. fold b. left.
    apply (hoursAngle_from_behind b _ _ Hv). apply subMinute_range.
  - intros now1 now2 Hh Hm Ht. rewrite !computeHoursAngle_result. fold b.
    rewrite Hh, Hm.
    destruct Ht as [Hlt | Heq].
    + left. apply (hoursAngle_from_behind b _ _ Hv);
        [apply subMinute_range | exact Hlt].
    + rewrite Heq. right. reflexivity.
Qed.

Lemma computeHoursAngle_from_behind_witness :
  result (computeHoursAngle midnight) defaultClock <=
  result (computeHoursAngle tenthOfSecond) defaultClock /\
  result (computeHoursAngle tenthOfSecond) defaultClock <=
  Math.PI / 360 *
  (IZR (getMinutes tenthOfSecond) + 60 * IZR (getHours tenthOfSecond)).
Proof.
  assert (Hv : valid_hour_hand (Behavior.hour_hand (behavior_ defaultClock))).
  { unfold valid_hour_hand. cbn. lra. }
  destruct (computeHoursAngle_from_behind defaultClock Hv) as [Hle Hinc].
  split.
  - apply Hinc; [reflexivity | reflexivity | unfold subMinute; cbn; lra].
  - apply Hle.
Defined.

(** ** Dates with the same local time of day *)

Lemma getMilliseconds_local (d1 d2 : Date) (k : Z) :
  localTime d2 = (localTime d1 + 1000 * k)%Z ->
  getMilliseconds d2 = getMilliseconds d1.
Proof.
  intros H. unfold getMilliseconds. rewrite H.
  rewrite (Z.mul_comm 1000 k). apply Z_mod_plus_full.
Qed.

Lemma getSeconds_local (d1 d2 : Date) (k : Z) :
  localTime d2 = (localTime d1 + 60000 * k)%Z ->
  getSeconds d2 = getSeconds d1.
Proof.
  intros H. unfold getSeconds. rewrite H.
  replace (localTime d1 + 60000 * k)%Z
    with (localTime d1 + (60 * k) * 1000)%Z by lia.
  rewrite Z.div_add by lia.
  rewrite (Z.mul_comm 60 k). apply Z_mod_plus_full.
Qed.

Lemma getMinutes_local (d1 d2 : Date) (k : Z) :
  localTime d2 = (localTime d1 + 3600000 * k)%Z ->
  getMinutes d2 = getMinutes d1.
Proof.
  intros H. unfold getMinutes. rewrite H.
  replace (localTime d1 + 3600000 * k)%Z
    with (localTime d1 + (60 * k) * 60000)%Z by lia.
  rewrite Z.div_add by lia.
  rewrite (Z.mul_comm 60 k). apply Z_mod_plus_full.
Qed.

Lemma getHours_local (d1 d2 : Date) (k : Z) :
  localTime d2 = (localTime d1 + 86400000 * k)%Z ->
  getHours d2 = getHours d1.
Proof.
  intros H. unfold getHours. rewrite H.
  replace (localTime d1 + 86400000 * k)%Z
    with (localTime d1 + (24 * k) * 3600000)%Z by lia.
  rewrite Z.div_add by lia.
  rewrite (Z.mul_comm 24 k). apply Z_mod_plus_full.
Qed.

Lemma subMinute_local (d1 d2 : Date) (k : Z) :
  localTime d2 = (localTime d1 + 60000 * k)%Z ->
  subMinute d2 = subMinute d1.
Proof.
  intros H. apply subMinute_ext.
  - exact (getSeconds_local d1 d2 k H).
  - apply (getMilliseconds_local d1 d2 (60 * k)). rewrite H. lia.
Qed.

(** X8.  The angles depend on the local time of day only: two dates
    whose local times (time value plus the zone adjustment in force at
    each) differ by a whole number of minutes give the same seconds
    angle, by a whole number of hours the same minutes angle, by a whole
    number of days the same hours angle. *)
Theorem angles_repeat_in_local_time (this : Clock) (now1 now2 : Date) (k : Z) :
  (localTime now2 = (localTime now1 + 60000 * k)%Z ->
   result (computeSecondsAngle now2) this =
   result (computeSecondsAngle now1) this) /\
  (localTime now2 = (localTime now1 + 3600000 * k)%Z ->
   result (computeMinutesAngle now2) this =
   result (computeMinutesAngle now1) this) /\
  (localTime now2 = (localTime now1 + 86400000 * k)%Z ->
   result (computeHoursAngle now2) this =
   result (computeHoursAngle now1) this).
Proof.
  rewrite !computeSecondsAngle_result, !computeMinutesAngle_result,
    !computeHoursAngle_result.
  split; [|split]; intros H.
  - rewrite (subMinute_local now1 now2 k H). reflexivity.
  - rewrite (getMinutes_local now1 now2 k H).
    rewrite (subMinute_local now1 now2 (60 * k)) by (rewrite H; lia).
    reflexivity.
  - rewrite (getHours_local now1 now2 k H).
    rewrite (getMinutes_local now1 now2 (24 * k)) by (rewrite H; lia).
    rewrite (subMinute_local now1 now2 (1440 * k)) by (rewrite H; lia).
    reflexivity.
Qed.

Lemma angles_repeat_in_local_time_witness :
  (timeValue morningEast <> timeValue morning /\
   localTZA morningEast <> localTZA morning) /\
  result (computeSecondsAngle morningEast) defaultClock =
    result (computeSecondsAngle morning) defaultClock /\
  result (computeMinutesAngle morningEast) defaultClock =
    result (computeMinutesAngle morning) defaultClock /\
  result (computeHoursAngle nextMorning) defaultClock =
    result (computeHoursAngle morning) defaultClock.
Proof.
  split; [split; cbn; discriminate|].
  split; [|split].
  - apply (angles_repeat_in_local_time defaultClock morning morningEast 0).
    reflexivity.
  - apply (angles_repeat_in_local_time defaultClock morning morningEast 0).
    reflexivity.
  - apply (angles_repeat_in_local_time defaultClock morning nextMorning 1).
    reflexivity.
Defined.



